(** * map-ledger / ai-mapping-agent: the step-progress indicator

    A shallow embedding of [utils/ui_utils.py] and [app.py].

    The Python module has one constant ([STEPS]) and two functions
    ([compute_current_step], [render_progress]); [app.py] composes them in
    [main].  Both functions talk to Streamlit: the first reads the
    session-state mapping, the second calls [st.write] and [st.progress].
    Here the session state is a finite map from keys to Python values, the
    rendering surface is the list of what has been put on it, and a Python
    computation is a function from the world to an outcome (a value or a
    raised exception) and the world after it.

    Python integers are [Z]; Python floats are IEEE-754 binary64 numbers,
    taken from the Standard Library's [spec_float] with [prec = 53] and
    [emax = 1024]; Python strings are [string]s, read as sequences of code
    points below 256. *)

From Stdlib Require Import ZArith QArith Qround Ascii String List Lia.
From Stdlib Require Import Floats.SpecFloat.
From stdpp Require Import base option gmap strings pretty.
Import ListNotations.

Local Open Scope string_scope.
Local Open Scope Z_scope.

(** ** Python values and exceptions *)

(** The values a session-state entry is modelled to hold: [None], booleans,
    integers, floats and strings.  Other objects (containers, instances of
    user classes with an [__int__] method) are not part of the model. *)
Inductive PyVal : Type :=
  | PyNone
  | PyBool (b : bool)
  | PyInt (n : Z)
  | PyFloat (f : spec_float)
  | PyStr (s : string).

(** The exceptions the two functions can meet: the built-in ones, and the one
    Streamlit raises when a call is given a value it does not accept. *)
Inductive PyExc : Type :=
  | TypeError
  | ValueError
  | OverflowError
  | ZeroDivisionError
  | StreamlitAPIException.

Inductive outcome (A : Type) : Type :=
  | Returned (a : A)
  | Raised (e : PyExc).
Arguments Returned {A} a.
Arguments Raised {A} e.

Definition is_raised {A} (o : outcome A) : bool :=
  match o with Raised _ => true | Returned _ => false end.

(** ** binary64 floats *)

Module Float64.

Definition prec : Z := 53.
Definition emax : Z := 1024.

Definition div : spec_float -> spec_float -> spec_float := SFdiv prec emax.

(** An integer as an (unrounded) float with exponent 0. *)
Definition of_Z (n : Z) : spec_float :=
  match n with
  | Z0 => S754_zero false
  | Zpos p => S754_finite false p 0
  | Zneg p => S754_finite true p 0
  end.

Definition is_finite (f : spec_float) : bool :=
  match f with
  | S754_zero _ | S754_finite _ _ _ => true
  | S754_infinity _ | S754_nan => false
  end.

(** The rational number a finite float stands for: [(-1)^s * m * 2^e]. *)
Definition to_Q (f : spec_float) : option Q :=
  match f with
  | S754_zero _ => Some (0 # 1)
  | S754_finite s m e =>
      Some match e with
           | Z0 => cond_Zopp s (Zpos m) # 1
           | Zpos k => cond_Zopp s (Zpos m * 2 ^ Zpos k) # 1
           | Zneg k => cond_Zopp s (Zpos m) # (2 ^ k)%positive
           end
  | S754_infinity _ | S754_nan => None
  end.

(** [f] is finite and stands for exactly the rational [q]. *)
Definition exactly (f : spec_float) (q : Q) : Prop :=
  exists q', to_Q f = Some q' /\ (q' == q)%Q.

(** Rounding toward zero of a rational. *)
Definition Qtrunc (q : Q) : Z :=
  if Qnum q <? 0 then Qceiling q else Qfloor q.

End Float64.

(** ** The built-ins used by the module *)

(** [a / b] on two [int]s: true division.  Division by zero raises
    [ZeroDivisionError]; otherwise the result is the quotient rounded to the
    nearest binary64 (ties to even), and a quotient too large for a float
    raises [OverflowError]. *)
Definition py_truediv (a b : Z) : outcome spec_float :=
  if b =? 0 then Raised ZeroDivisionError
  else match Float64.div (Float64.of_Z a) (Float64.of_Z b) with
       | S754_infinity _ => Raised OverflowError
       | q => Returned q
       end.

(** [len(l)]. *)
Definition py_len {A} (l : list A) : Z := Z.of_nat (length l).

(** The default of [sys.get_int_max_str_digits()]: the longest run of
    decimal digits that [int(str)] and [str(int)] work on. *)
Definition int_max_str_digits : Z := 4300.

(** [str(n)], which is also what [{n}] in an f-string gives for an [int]:
    decimal digits, [-] in front of a negative number.  Raises [ValueError]
    above [int_max_str_digits] digits. *)
Definition py_str_int (n : Z) : outcome string :=
  let s := pretty n in
  let digits := Z.of_nat (String.length (pretty (Z.abs n))) in
  if int_max_str_digits <? digits then Raised ValueError else Returned s.

(** [int(f)] for a float: rounds toward zero; [nan] raises [ValueError] and
    an infinity [OverflowError]. *)
Definition py_int_float (f : spec_float) : outcome Z :=
  match f with
  | S754_zero _ => Returned 0
  | S754_finite s m e => Returned (cond_Zopp s (Z.shiftl (Zpos m) e))
  | S754_infinity _ => Raised OverflowError
  | S754_nan => Raised ValueError
  end.

(** *** [int(s)] for a string, base 10 *)

Module IntLiteral.

(** What a character is to [int(str)].  White space is the ASCII blanks (tab,
    line feed, vertical tab, form feed, carriage return, space) and the two
    white-space code points between 128 and 255 (next line, no-break
    space); the only digits below 256 are [0] to [9]. *)
Inductive char_class : Type :=
  | Space
  | Plus
  | Minus
  | Underscore
  | Digit (d : Z)
  | Other.

Definition classify (c : ascii) : char_class :=
  let n := N_of_ascii c in
  if ((9 <=? n) && (n <=? 13) || (n =? 32) || (n =? 133) || (n =? 160))%N
  then Space
  else if (n =? 43)%N then Plus
  else if (n =? 45)%N then Minus
  else if (n =? 95)%N then Underscore
  else if ((48 <=? n) && (n <=? 57))%N then Digit (Z.of_N (n - 48))
  else Other.

Fixpoint skip_spaces (s : string) : string :=
  match s with
  | String c s' =>
      match classify c with
      | Space => skip_spaces s'
      | _ => s
      end
  | EmptyString => s
  end.

(** The sign, and the text after it. *)
Definition read_sign (s : string) : bool * string :=
  match s with
  | String c s' =>
      match classify c with
      | Plus => (false, s')
      | Minus => (true, s')
      | _ => (false, s)
      end
  | EmptyString => (false, s)
  end.

(** Digits with single underscores between them.  [prev_us] says that the
    character just read was an underscore; the result is the value read,
    the number of digits, and the text left. *)
Fixpoint scan (prev_us : bool) (acc digits : Z) (s : string)
  : option (Z * Z * string) :=
  match s with
  | String c s' =>
      match classify c with
      | Underscore => if prev_us then None else scan true acc digits s'
      | Digit d => scan false (10 * acc + d) (digits + 1) s'
      | _ => if prev_us then None else Some (acc, digits, s)
      end
  | EmptyString => if prev_us then None else Some (acc, digits, s)
  end.

Definition starts_with_underscore (s : string) : bool :=
  match s with
  | String c _ =>
      match classify c with
      | Underscore => true
      | _ => false
      end
  | EmptyString => false
  end.

(** After the scan: there must be a digit, nothing but white space may
    follow, and the digits must be within the limit. *)
Definition finish (neg : bool) (scanned : option (Z * Z * string)) : outcome Z :=
  match scanned with
  | None => Raised ValueError
  | Some (n, digits, rest) =>
      if digits =? 0 then Raised ValueError
      else
        match skip_spaces rest with
        | String _ _ => Raised ValueError
        | EmptyString =>
            if int_max_str_digits <? digits then Raised ValueError
            else Returned (cond_Zopp neg n)
        end
  end.

Definition parse (s : string) : outcome Z :=
  let (neg, body) := read_sign (skip_spaces s) in
  if starts_with_underscore body then Raised ValueError
  else finish neg (scan false 0 0 body).

(** The grammar of the documentation, as an automaton: optional white
    space, an optional sign, one or more digits with single underscores
    allowed between two digits, optional white space; at most
    [int_max_str_digits] digits. *)
Inductive state : Type :=
  | Leading
  | Signed
  | InDigits (n : Z)
  | AfterUnderscore (n : Z)
  | Trailing (n : Z)
  | Reject.

Definition next (st : state) (c : ascii) : state :=
  match st, classify c with
  | Leading, Space => Leading
  | Leading, (Plus | Minus) => Signed
  | (Leading | Signed), Digit _ => InDigits 1
  | InDigits n, Digit _ => InDigits (n + 1)
  | InDigits n, Underscore => AfterUnderscore n
  | InDigits n, Space => Trailing n
  | AfterUnderscore n, Digit _ => InDigits (n + 1)
  | Trailing n, Space => Trailing n
  | _, _ => Reject
  end.

Definition accepting (st : state) : bool :=
  match st with
  | InDigits n | Trailing n => n <=? int_max_str_digits
  | _ => false
  end.

Fixpoint run (st : state) (s : string) : bool :=
  match s with
  | String c s' => run (next st c) s'
  | EmptyString => accepting st
  end.

Definition well_formed (s : string) : bool := run Leading s.

End IntLiteral.

(** [int(v)]. *)
Definition py_int (v : PyVal) : outcome Z :=
  match v with
  | PyNone => Raised TypeError
  | PyBool b => Returned (if b then 1 else 0)
  | PyInt n => Returned n
  | PyFloat f => py_int_float f
  | PyStr s => IntLiteral.parse s
  end.

(** ** The world: Streamlit's session state and rendering surface *)

(** What has been put on the rendering surface: the text of an [st.write]
    and the value of an [st.progress] that Streamlit accepted, in order. *)
Inductive UiCall : Type :=
  | UiWrite (text : string)
  | UiProgress (value : spec_float).

Record World : Type := mkWorld {
  session_state : gmap string PyVal;
  rendered : list UiCall
}.

(** A Python computation: it returns or raises, and leaves a world. *)
Definition Py (A : Type) : Type := World -> outcome A * World.

Definition ret {A} (a : A) : Py A := fun w => (Returned a, w).

Definition bind {A B} (c : Py A) (k : A -> Py B) : Py B :=
  fun w =>
    match c w with
    | (Returned a, w') => k a w'
    | (Raised e, w') => (Raised e, w')
    end.

(** A built-in that touches no state. *)
Definition pure_call {A} (o : outcome A) : Py A := fun w => (o, w).

#[export] Instance Py_ret : MRet Py := @ret.
#[export] Instance Py_bind : MBind Py := fun A B k c => bind c k.

(** [st.session_state.get(key, dflt)]. *)
Definition session_state_get (key : string) (dflt : PyVal) : Py PyVal :=
  fun w => (Returned (default dflt (session_state w !! key)), w).

(** [st.write(text)]. *)
Definition st_write (text : string) : Py unit :=
  fun w => (Returned tt,
            mkWorld (session_state w) (rendered w ++ [UiWrite text])).

(** The floats [st.progress] accepts: those between 0.0 and 1.0, both
    included ([nan] compares false with everything). *)
Definition progress_accepts (value : spec_float) : bool :=
  SFleb (S754_zero false) value &&
  SFleb value (S754_finite false 4503599627370496 (-52)).

(** [st.progress(value)] for a float.  A value outside the accepted range
    raises [StreamlitAPIException], and then nothing is displayed.  (The
    values this module passes are quotients by [len(STEPS)]: they are 0, or
    at least 1/4 in size and at least 1/4 away from 1 unless equal to it,
    so they are never close to a bound without being at it.) *)
Definition st_progress (value : spec_float) : Py unit :=
  fun w =>
    if progress_accepts value
    then (Returned tt,
          mkWorld (session_state w) (rendered w ++ [UiProgress value]))
    else (Raised StreamlitAPIException, w).

(** ** utils/ui_utils.py *)

Definition STEPS : list string :=
  [ "Upload File";
    "Map Accounts";
    "Review Results";
    "Finalize" ].

(** [compute_current_step()]. *)
Definition compute_current_step : Py Z :=
  v ← session_state_get "current_step" (PyInt 0);
  pure_call (py_int v).

Section Registry.

(** The list the module-level name [STEPS] is bound to when
    [render_progress] runs. *)
Variable registry : list string.

Definition render_progress_with (step : Z) : Py unit :=
  progress ← pure_call (py_truediv (step + 1) (py_len registry));
  numerator ← pure_call (py_str_int (step + 1));
  total ← pure_call (py_str_int (py_len registry));
  st_write ("Step " ++ numerator ++ " of " ++ total);;
  st_progress progress.

End Registry.

(** [render_progress(step)]. *)
Definition render_progress (step : Z) : Py unit :=
  render_progress_with STEPS step.

(** ** app.py *)

Definition main : Py unit :=
  step ← compute_current_step;
  render_progress step.

(** ** Vocabulary of the statements *)

(** What the host application does when it advances the workflow:
    [st.session_state[key] = v]. *)
Definition session_state_set (key : string) (v : PyVal) (w : World) : World :=
  mkWorld (<[key := v]> (session_state w)) (rendered w).

(** The world after some more calls on the rendering surface. *)
Definition after_rendering (calls : list UiCall) (w : World) : World :=
  mkWorld (session_state w) (rendered w ++ calls).

(** The one-character text of a decimal digit [0..9]. *)
Definition decimal_digit (d : Z) : string :=
  String (ascii_of_N (48 + Z.to_N d)) EmptyString.

(** The binary64 numbers 0.25, 1.5 and 2.9 (the float nearest to 29/10). *)
Definition float_0_25 : spec_float := S754_finite false 4503599627370496 (-54).
Definition float_1_5 : spec_float := S754_finite false 6755399441055744 (-52).
Definition float_2_9 : spec_float := S754_finite false 6530219459687219 (-51).

(** The integer a decimal literal spells: its digits, in the order they
    stand, read in base 10, and negated when the text has a minus sign.
    White space, underscores and a plus sign spell nothing. *)
Fixpoint decimal_digits (s : string) : list Z :=
  match s with
  | EmptyString => []
  | String c s' =>
      match Ascii.is_nat c with
      | Some d => Z.of_nat d :: decimal_digits s'
      | None => decimal_digits s'
      end
  end.

Fixpoint has_minus (s : string) : bool :=
  match s with
  | EmptyString => false
  | String c s' => bool_decide (c = "-"%char) || has_minus s'
  end.

Definition spelled (s : string) : Z :=
  let value := fold_left (fun acc d => 10 * acc + d) (decimal_digits s) 0 in
  if has_minus s then - value else value.

(** The values [int()] converts: integers and booleans, finite floats, and
    strings that are decimal integer literals. *)
Definition int_convertible (v : PyVal) : bool :=
  match v with
  | PyNone => false
  | PyBool _ | PyInt _ => true
  | PyFloat f => Float64.is_finite f
  | PyStr s => IntLiteral.well_formed s
  end.

(** The exceptions [int()] raises on a value it cannot convert. *)
Definition conversion_error (e : PyExc) : bool :=
  match e with
  | TypeError | ValueError | OverflowError => true
  | ZeroDivisionError | StreamlitAPIException => false
  end.

(** The record [(m, r, s)] of a right shift stands for the fraction
    [num / den]: [m] is its integer part, and the round and sticky bits say
    where the remainder lies with respect to one half. *)
Definition represents (mrs : shr_record) (num den : Z) : Prop :=
  0 < den /\ 0 <= num /\ shr_m mrs = num / den /\
  match shr_r mrs, shr_s mrs with
  | false, false => num mod den = 0
  | false, true => 0 < 2 * (num mod den) < den
  | true, false => 2 * (num mod den) = den
  | true, true => den < 2 * (num mod den)
  end.

(** ** Equations of the three functions *)

Lemma compute_current_step_unfold (w : World) :
  compute_current_step w =
  (py_int (default (PyInt 0) (session_state w !! "current_step")), w).
Proof. reflexivity. Qed.

Lemma render_progress_with_unfold (registry : list string) (step : Z) (w : World) :
  render_progress_with registry step w =
  match py_truediv (step + 1) (py_len registry) with
  | Raised e => (Raised e, w)
  | Returned progress =>
      match py_str_int (step + 1) with
      | Raised e => (Raised e, w)
      | Returned numerator =>
          match py_str_int (py_len registry) with
          | Raised e => (Raised e, w)
          | Returned total =>
              if progress_accepts progress
              then (Returned tt,
                    after_rendering
                      [UiWrite ("Step " ++ numerator ++ " of " ++ total);
                       UiProgress progress] w)
              else (Raised StreamlitAPIException,
                    after_rendering
                      [UiWrite ("Step " ++ numerator ++ " of " ++ total)] w)
          end
      end
  end.
Proof.
  unfold render_progress_with, mbind, Py_bind, bind, pure_call.
  destruct (py_truediv _ _) as [progress|]; [|reflexivity].
  destruct (py_str_int (step + 1)); [|reflexivity].
  destruct (py_str_int (py_len registry)); [|reflexivity].
  unfold st_write, st_progress, after_rendering; cbn.
  destruct (progress_accepts progress); [|reflexivity].
  by rewrite <- app_assoc.
Qed.

Lemma main_unfold (w : World) :
  main w =
  match py_int (default (PyInt 0) (session_state w !! "current_step")) with
  | Returned step => render_progress step w
  | Raised e => (Raised e, w)
  end.
Proof.
  unfold main, mbind, Py_bind, bind. rewrite compute_current_step_unfold.
  by destruct (py_int _).
Qed.

Lemma float_constants_valid :
  valid_binary Float64.prec Float64.emax float_0_25 = true /\
  valid_binary Float64.prec Float64.emax float_1_5 = true /\
  Float64.exactly float_0_25 (1 # 4) /\
  Float64.exactly float_1_5 (3 # 2).
Proof. repeat split; try (by eexists; split; [reflexivity|vm_compute]). Qed.

(** ** [int()]: the parser and the grammar accept the same strings *)

Section IntLiteralFacts.
Import IntLiteral.

Lemma run_Reject (s : string) : run Reject s = false.
Proof.
  induction s as [|c s IH]; [reflexivity|].
  cbn [run]. unfold next. by destruct (classify c).
Qed.

Lemma run_Trailing (n : Z) (s : string) :
  run (Trailing n) s =
  match skip_spaces s with
  | EmptyString => n <=? int_max_str_digits
  | String _ _ => false
  end.
Proof.
  induction s as [|c s IH]; [reflexivity|].
  cbn [run skip_spaces]. unfold next.
  destruct (classify c); auto using run_Reject.
Qed.

Lemma run_scan (s : string) :
  forall (prev_us : bool) (acc n : Z) (neg : bool),
    1 <= n ->
    negb (is_raised (finish neg (scan prev_us acc n s))) =
    run (if prev_us then AfterUnderscore n else InDigits n) s.
Proof.
  induction s as [|c s IH]; intros prev_us acc n neg Hn.
  - destruct prev_us; cbn; [reflexivity|].
    destruct (Z.eqb_spec n 0); [lia|].
    unfold accepting. rewrite Z.ltb_antisym. by destruct (n <=? _).
  - cbn [scan run]. unfold next.
    destruct (classify c) eqn:Hc, prev_us;
      rewrite ?run_Reject, ?IH by lia; try reflexivity.
    + cbn [finish]. destruct (Z.eqb_spec n 0); [lia|].
      cbn [skip_spaces]. rewrite Hc, run_Trailing.
      destruct (skip_spaces s); [|reflexivity].
      rewrite Z.ltb_antisym. by destruct (n <=? _).
    + cbn [finish]. destruct (Z.eqb_spec n 0); [lia|].
      cbn [skip_spaces]. by rewrite Hc.
    + cbn [finish]. destruct (Z.eqb_spec n 0); [lia|].
      cbn [skip_spaces]. by rewrite Hc.
    + cbn [finish]. destruct (Z.eqb_spec n 0); [lia|].
      cbn [skip_spaces]. by rewrite Hc.
Qed.

Lemma run_body (neg : bool) (body : string) :
  negb (is_raised (if starts_with_underscore body then Raised ValueError
                   else finish neg (scan false 0 0 body))) =
  run Signed body.
Proof.
  destruct body as [|c s]; [reflexivity|].
  cbn [starts_with_underscore scan run]. unfold next.
  destruct (classify c) eqn:Hc; rewrite ?run_Reject; try reflexivity.
  by rewrite (run_scan s false _ 1 neg).
Qed.

Lemma parse_well_formed (s : string) :
  negb (is_raised (parse s)) = well_formed s.
Proof.
  unfold well_formed, parse.
  induction s as [|c s IH]; [reflexivity|].
  cbn [skip_spaces run]. unfold next at 1.
  destruct (classify c) eqn:Hc; try exact IH.
  - unfold read_sign. rewrite Hc. apply run_body.
  - unfold read_sign. rewrite Hc. apply run_body.
  - unfold read_sign. rewrite Hc. cbn. by rewrite Hc, run_Reject.
  - unfold read_sign. rewrite Hc.
    rewrite run_body. cbn [run]. unfold next. by rewrite Hc.
  - unfold read_sign. rewrite Hc.
    rewrite run_body. cbn [run]. unfold next. by rewrite Hc.
Qed.

Lemma parse_raises (s : string) (e : PyExc) :
  parse s = Raised e -> e = ValueError.
Proof.
  unfold parse. destruct (read_sign _) as [neg body].
  destruct (starts_with_underscore body); [congruence|].
  unfold finish. destruct (scan _ _ _ _) as [[[n digits] rest]|]; [|congruence].
  destruct (digits =? 0); [congruence|].
  destruct (skip_spaces rest); [|congruence].
  destruct (_ <? _); congruence.
Qed.

Lemma classify_spells (c : ascii) :
  match classify c with
  | Digit d =>
      Ascii.is_nat c = Some (Z.to_nat d) /\ 0 <= d /\
      bool_decide (c = "-"%char) = false
  | Minus => Ascii.is_nat c = None /\ bool_decide (c = "-"%char) = true
  | _ => Ascii.is_nat c = None /\ bool_decide (c = "-"%char) = false
  end.
Proof. destruct c as [[] [] [] [] [] [] [] []]; vm_compute; by split_and!. Qed.

Lemma spaces_spell_nothing (s : string) :
  skip_spaces s = EmptyString ->
  decimal_digits s = [] /\ has_minus s = false.
Proof.
  induction s as [|c s IH]; [done|]. cbn [skip_spaces decimal_digits has_minus].
  pose proof (classify_spells c) as Hc.
  destruct (classify c); try discriminate.
  destruct Hc as [-> ->]. exact IH.
Qed.

Lemma skip_spaces_spells_the_same (s : string) :
  decimal_digits (skip_spaces s) = decimal_digits s /\
  has_minus (skip_spaces s) = has_minus s.
Proof.
  induction s as [|c s IH]; [done|]. cbn [skip_spaces].
  pose proof (classify_spells c) as Hc.
  destruct (classify c); try done.
  cbn [decimal_digits has_minus]. by destruct Hc as [-> ->].
Qed.

Lemma scan_spells (s : string) :
  forall (prev_us : bool) (acc k v k' : Z) (rest : string),
    scan prev_us acc k s = Some (v, k', rest) ->
    skip_spaces rest = EmptyString ->
    v = fold_left (fun acc d => 10 * acc + d) (decimal_digits s) acc /\
    has_minus s = false.
Proof.
  induction s as [|c s IH]; intros prev_us acc k v k' rest Hscan Hrest.
  - cbn in Hscan. destruct prev_us; [discriminate|]. by injection Hscan as <- _ _.
  - cbn [scan] in Hscan. cbn [decimal_digits has_minus].
    pose proof (classify_spells c) as Hc.
    destruct (classify c) eqn:Hclass.
    + destruct prev_us; [discriminate|]. injection Hscan as <- _ <-.
      destruct (spaces_spell_nothing _ Hrest) as [Hd Hm].
      cbn [decimal_digits has_minus] in Hd, Hm. by rewrite Hd, Hm.
    + destruct prev_us; [discriminate|]. injection Hscan as <- _ <-.
      cbn [skip_spaces] in Hrest. by rewrite Hclass in Hrest.
    + destruct prev_us; [discriminate|]. injection Hscan as <- _ <-.
      cbn [skip_spaces] in Hrest. by rewrite Hclass in Hrest.
    + destruct Hc as [-> ->]. cbn [orb].
      destruct prev_us; [discriminate|]. by apply IH in Hscan.
    + destruct Hc as (-> & Hd & ->). cbn [orb fold_left].
      rewrite Z2Nat.id by done. by apply IH in Hscan.
    + destruct prev_us; [discriminate|]. injection Hscan as <- _ <-.
      cbn [skip_spaces] in Hrest. by rewrite Hclass in Hrest.
Qed.

Lemma finish_spells (neg : bool) (body : string) (n : Z) :
  finish neg (scan false 0 0 body) = Returned n ->
  n = cond_Zopp neg
        (fold_left (fun acc d => 10 * acc + d) (decimal_digits body) 0) /\
  has_minus body = false.
Proof.
  unfold finish.
  destruct (scan false 0 0 body) as [[[v k] rest]|] eqn:Hscan; [|discriminate].
  destruct (k =? 0); [discriminate|].
  destruct (skip_spaces rest) eqn:Hrest; [|discriminate].
  destruct (_ <? _); [discriminate|]. intros [= <-].
  destruct (scan_spells body false 0 0 v k rest Hscan Hrest) as [-> ->]. done.
Qed.

(** What [int(s)] returns is the integer [s] spells. *)
Lemma parse_spells (s : string) (n : Z) :
  parse s = Returned n -> n = spelled s.
Proof.
  unfold parse, spelled.
  destruct (skip_spaces_spells_the_same s) as [<- <-].
  destruct (skip_spaces s) as [|c body]; [discriminate|].
  unfold read_sign. pose proof (classify_spells c) as Hc.
  cbn [decimal_digits has_minus].
  destruct (classify c) eqn:Hclass.
  - destruct (starts_with_underscore _); [discriminate|].
    intros [-> Hm]%finish_spells. cbn [decimal_digits has_minus] in *.
    by rewrite Hm.
  - destruct Hc as [-> ->]. cbn [orb].
    destruct (starts_with_underscore _); [discriminate|].
    intros [-> ->]%finish_spells. done.
  - destruct Hc as [-> ->]. cbn [orb].
    destruct (starts_with_underscore _); [discriminate|].
    intros [-> _]%finish_spells. done.
  - destruct (starts_with_underscore _); [discriminate|].
    intros [-> Hm]%finish_spells. cbn [decimal_digits has_minus] in *.
    by rewrite Hm.
  - destruct (starts_with_underscore _); [discriminate|].
    intros [-> Hm]%finish_spells. cbn [decimal_digits has_minus] in *.
    by rewrite Hm.
  - destruct (starts_with_underscore _); [discriminate|].
    intros [-> Hm]%finish_spells. cbn [decimal_digits has_minus] in *.
    by rewrite Hm.
Qed.

End IntLiteralFacts.

(** ** [int()] on floats rounds toward zero *)

Lemma py_int_float_trunc (f : spec_float) (q : Q) :
  Float64.to_Q f = Some q -> py_int_float f = Returned (Float64.Qtrunc q).
Proof.
  destruct f as [s|s| |s m e]; try discriminate; intros [= <-]; [reflexivity|].
  cbn [py_int_float]. f_equal. unfold Float64.Qtrunc, Qceiling, Qfloor.
  destruct e as [|k|k].
  - rewrite Z.shiftl_0_r. destruct s; cbn [cond_Zopp Qnum Qden Qopp Z.ltb Z.compare Z.opp];
      by rewrite Z.div_1_r.
  - rewrite Z.shiftl_mul_pow2 by lia.
    assert (0 < Z.pos m * 2 ^ Z.pos k) as Hpos by lia.
    destruct s; cbn [cond_Zopp Qnum Qden Qopp].
    + destruct (Z.ltb_spec (- (Z.pos m * 2 ^ Z.pos k)) 0); [|lia].
      by rewrite Z.opp_involutive, Z.div_1_r.
    + destruct (Z.ltb_spec (Z.pos m * 2 ^ Z.pos k) 0); [lia|].
      by rewrite Z.div_1_r.
  - change (Z.shiftl (Z.pos m) (Z.neg k)) with (Z.shiftr (Z.pos m) (Z.pos k)).
    rewrite Z.shiftr_div_pow2 by lia.
    rewrite <- Pos2Z.inj_pow.
    destruct s; reflexivity.
Qed.

(** ** [int()] raises exactly on the values it cannot convert *)

Lemma py_int_convertible (v : PyVal) :
  negb (is_raised (py_int v)) = int_convertible v.
Proof.
  destruct v as [|b|n|f|s]; try reflexivity.
  - by destruct f.
  - apply parse_well_formed.
Qed.

Lemma py_int_raises (v : PyVal) (e : PyExc) :
  py_int v = Raised e -> conversion_error e = true.
Proof.
  destruct v as [|b|n|f|s]; cbn [py_int]; try congruence.
  - by intros [= <-].
  - destruct f; cbn; try congruence; by intros [= <-].
  - intros ->%parse_raises. reflexivity.
Qed.

(** ** The registry *)

(** C6: [STEPS] is the fixed list of the four stage names, in workflow
    order, and its length, which is what [len(STEPS)] gives on every call, is
    4.  Nothing about it depends on the world: it is a constant. *)
Theorem STEPS_fixed :
  STEPS = ["Upload File"; "Map Accounts"; "Review Results"; "Finalize"] /\
  py_len STEPS = Z.of_nat (length STEPS) /\
  py_len STEPS = 4 /\
  NoDup STEPS.
Proof.
  split_and!; [done..|]. compute_done.
Qed.

(** ** Reading the current step *)

(** C2: whatever integer the host stored under ["current_step"],
    [compute_current_step] returns it as it is, negative or beyond the last
    step included, and leaves the world as it found it. *)
Theorem compute_current_step_roundtrip (v : Z) (w : World) :
  compute_current_step (session_state_set "current_step" (PyInt v) w) =
  (Returned v, session_state_set "current_step" (PyInt v) w).
Proof.
  rewrite compute_current_step_unfold.
  unfold session_state_set; cbn [session_state].
  by rewrite lookup_insert_eq.
Qed.

(** C10: the outcome of [compute_current_step] is a function of the
    ["current_step"] entry alone: two worlds that agree on it (absent in
    both, or the same value in both) give the same outcome, whatever their
    other keys and whatever has been rendered. *)
Theorem compute_current_step_depends_on_key_only (w1 w2 : World) :
  session_state w1 !! "current_step" = session_state w2 !! "current_step" ->
  fst (compute_current_step w1) = fst (compute_current_step w2).
Proof.
  intros Hkey. rewrite !compute_current_step_unfold. cbn [fst].
  by rewrite Hkey.
Qed.

Lemma compute_current_step_depends_on_key_only_witness :
  fst (compute_current_step
         (mkWorld {[ "current_step" := PyInt 2; "uploaded" := PyStr "gl.csv" ]} [])) =
  fst (compute_current_step
         (mkWorld {[ "user" := PyNone; "current_step" := PyInt 2 ]}
                  [UiWrite "Welcome"])).
Proof.
  apply compute_current_step_depends_on_key_only. vm_compute. reflexivity.
Defined.

(** ** Rendering *)

Lemma py_truediv_zero_division (a b : Z) :
  py_truediv a b = Raised ZeroDivisionError <-> b = 0.
Proof.
  unfold py_truediv. destruct (Z.eqb_spec b 0) as [->|Hb]; [done|].
  split; [|done].
  by destruct (Float64.div _ _).
Qed.

Lemma py_str_int_raises (n : Z) (e : PyExc) :
  py_str_int n = Raised e -> e = ValueError.
Proof.
  unfold py_str_int. destruct (_ <? _); congruence.
Qed.

(** C1: at a valid index [i], from 0 to [len(STEPS) - 1], [render_progress]
    writes the label "Step i+1 of 4" and then sets the progress indicator to
    the float that is exactly the fraction [(i + 1) / len(STEPS)]; it raises
    nothing and leaves the session state alone. *)
Theorem render_progress_valid_index (i : Z) (w : World) :
  0 <= i <= py_len STEPS - 1 ->
  exists progress : spec_float,
    render_progress i w =
      (Returned tt,
       after_rendering
         [UiWrite ("Step " ++ decimal_digit (i + 1) ++ " of " ++
                 decimal_digit (py_len STEPS));
          UiProgress progress] w) /\
    decimal_digit (py_len STEPS) = "4" /\
    valid_binary Float64.prec Float64.emax progress = true /\
    Float64.exactly progress (inject_Z (i + 1) / inject_Z (py_len STEPS)).
Proof.
  intros Hi. change (py_len STEPS) with 4 in *.
  assert (i = 0 \/ i = 1 \/ i = 2 \/ i = 3) as Hcases by lia.
  unfold render_progress. rewrite render_progress_with_unfold.
  destruct Hcases as [-> | [-> | [-> | ->]]];
    (eexists; split_and!;
     [ reflexivity | reflexivity | reflexivity
     | eexists; split; [reflexivity | vm_compute; reflexivity] ]).
Qed.

Lemma render_progress_valid_index_witness :
  exists progress : spec_float,
    render_progress 2 (mkWorld ∅ []) =
      (Returned tt,
       after_rendering
         [UiWrite ("Step " ++ decimal_digit (2 + 1) ++ " of " ++
                 decimal_digit (py_len STEPS));
          UiProgress progress] (mkWorld ∅ [])) /\
    decimal_digit (py_len STEPS) = "4" /\
    valid_binary Float64.prec Float64.emax progress = true /\
    Float64.exactly progress (inject_Z (2 + 1) / inject_Z (py_len STEPS)).
Proof.
  apply (render_progress_valid_index 2 (mkWorld ∅ [])).
  unfold py_len; simpl; lia.
Defined.

(** C7: the division in [render_progress] raises [ZeroDivisionError] exactly
    when the registry it divides by is empty; with the fixed four-element
    [STEPS] that never happens, whatever the step and the world. *)
Theorem render_progress_zero_division (registry : list string) (step : Z) (w : World) :
  (fst (render_progress_with registry step w) = Raised ZeroDivisionError <->
   py_len registry = 0) /\
  fst (render_progress step w) <> Raised ZeroDivisionError.
Proof.
  assert (forall r, fst (render_progress_with r step w) = Raised ZeroDivisionError <->
                    py_len r = 0) as Hiff.
  { intros r. rewrite render_progress_with_unfold.
    rewrite <- (py_truediv_zero_division (step + 1) (py_len r)).
    destruct (py_truediv _ _) as [progress|e]; cbn [fst].
    - split; [|done].
      destruct (py_str_int (step + 1)) as [numerator|e1] eqn:E1; cbn [fst].
      + destruct (py_str_int (py_len r)) as [total|e2] eqn:E2; cbn [fst].
        * by destruct (progress_accepts progress).
        * apply py_str_int_raises in E2. congruence.
      + apply py_str_int_raises in E1. congruence.
    - split; intros [= ->]; reflexivity. }
  split; [apply Hiff|].
  unfold render_progress. rewrite Hiff. done.
Qed.

Lemma render_progress_huge_step (w : World) :
  render_progress (2 ^ 1100) w = (Raised OverflowError, w).
Proof.
  unfold render_progress. rewrite render_progress_with_unfold.
  by vm_compute (py_truediv _ _).
Qed.

(** ** One pass of the entry point *)




(** C4: when the session state has no ["current_step"] key,
    [compute_current_step] returns 0, and one pass of [main] writes
    "Step 1 of 4" and sets the progress indicator to 0.25, the float that is
    exactly 1/4. *)
Theorem main_without_current_step (w : World) :
  session_state w !! "current_step" = None ->
  compute_current_step w = (Returned 0, w) /\
  main w =
    (Returned tt,
     after_rendering [UiWrite "Step 1 of 4"; UiProgress float_0_25] w) /\
  Float64.exactly float_0_25 (1 # 4).
Proof.
  intros Hkey. split_and!.
  - rewrite compute_current_step_unfold. by rewrite Hkey.
  - rewrite main_unfold, Hkey. cbn [default from_option id py_int].
    unfold render_progress. by rewrite render_progress_with_unfold.
  - apply float_constants_valid.
Qed.

Lemma main_without_current_step_witness :
  compute_current_step (mkWorld ∅ []) = (Returned 0, mkWorld ∅ []) /\
  main (mkWorld ∅ []) =
    (Returned tt, mkWorld ∅ [UiWrite "Step 1 of 4"; UiProgress float_0_25]).
Proof.
  destruct (main_without_current_step (mkWorld ∅ [])) as (Hstep & Hmain & _).
  - vm_compute. reflexivity.
  - split; [exact Hstep | exact Hmain].
Defined.

(** ** Failures of the conversion *)

(** C5: [compute_current_step] raises exactly when ["current_step"] is
    present and holds a value [int()] cannot convert; an absent key never
    raises.  What it raises is the exception of [int()] ([TypeError],
    [ValueError] or [OverflowError]); it reaches the caller, [main] raises
    it in turn with nothing rendered, and no 0 is returned in its place. *)
Theorem compute_current_step_raises_iff (w : World) :
  (is_raised (fst (compute_current_step w)) = true <->
   exists v, session_state w !! "current_step" = Some v /\
             int_convertible v = false) /\
  (forall e, fst (compute_current_step w) = Raised e ->
             conversion_error e = true /\
             compute_current_step w = (Raised e, w) /\
             main w = (Raised e, w)) /\
  (forall v, session_state w !! "current_step" = Some v ->
             int_convertible v = false ->
             fst (compute_current_step w) <> Returned 0).
Proof.
  rewrite compute_current_step_unfold, main_unfold. cbn [fst].
  split_and!.
  - destruct (session_state w !! "current_step") as [v|] eqn:Hkey; cbn [default from_option id].
    + split.
      * intros Hr. exists v. split; [done|].
        rewrite <- py_int_convertible. by rewrite Hr.
      * intros (v' & [= <-] & Hr). rewrite <- py_int_convertible in Hr.
        by destruct (py_int v).
    + split; [done|]. by intros (v & ? & _).
  - intros e He. rewrite He. eauto using py_int_raises.
  - intros v -> Hv. cbn [default from_option id]. rewrite <- py_int_convertible in Hv.
    by destruct (py_int v).
Qed.

Lemma compute_current_step_raises_examples (w : World) :
  let stored v := session_state_set "current_step" v w in
  compute_current_step (stored PyNone) = (Raised TypeError, stored PyNone) /\
  compute_current_step (stored (PyStr "two")) =
    (Raised ValueError, stored (PyStr "two")) /\
  compute_current_step (stored (PyStr "2.0")) =
    (Raised ValueError, stored (PyStr "2.0")) /\
  compute_current_step (stored (PyFloat S754_nan)) =
    (Raised ValueError, stored (PyFloat S754_nan)) /\
  compute_current_step (stored (PyFloat (S754_infinity false))) =
    (Raised OverflowError, stored (PyFloat (S754_infinity false))).
Proof.
  intros stored. unfold stored, session_state_set.
  rewrite !compute_current_step_unfold. cbn [session_state].
  rewrite !lookup_insert_eq. by split_and!.
Qed.

(** C9: a stored value that is not an [int] but that [int()] converts goes
    through without an error: a finite float gives its value rounded toward
    zero, a boolean gives 0 or 1, a string that is a decimal integer literal
    gives the integer it spells.  Nothing is raised and the world is left as
    it was. *)
Theorem compute_current_step_converts_silently (w : World) (v : PyVal) :
  session_state w !! "current_step" = Some v ->
  int_convertible v = true ->
  exists n : Z,
    compute_current_step w = (Returned n, w) /\
    match v with
    | PyFloat f =>
        exists q, Float64.to_Q f = Some q /\ n = Float64.Qtrunc q
    | PyBool b => n = if b then 1 else 0
    | PyStr s => n = spelled s
    | PyInt k => n = k
    | PyNone => False
    end.
Proof.
  intros Hkey Hconv. rewrite compute_current_step_unfold, Hkey.
  cbn [default from_option id].
  destruct v as [|b|k|f|s]; cbn [py_int int_convertible] in *;
    try discriminate; try by eexists.
  - destruct (Float64.to_Q f) as [q|] eqn:Hq; [|by destruct f].
    exists (Float64.Qtrunc q). rewrite (py_int_float_trunc f q Hq). eauto.
  - rewrite <- parse_well_formed in Hconv.
    destruct (IntLiteral.parse s) as [n|e] eqn:Hparse; [|discriminate].
    exists n. split; [done|]. by apply parse_spells.
Qed.

Lemma compute_current_step_converts_silently_witness :
  exists n : Z,
    compute_current_step (mkWorld {[ "current_step" := PyStr " -1_0 " ]} []) =
      (Returned n, mkWorld {[ "current_step" := PyStr " -1_0 " ]} []) /\
    n = spelled " -1_0 ".
Proof.
  apply (compute_current_step_converts_silently
           (mkWorld {[ "current_step" := PyStr " -1_0 " ]} [])
           (PyStr " -1_0 ")).
  - vm_compute. reflexivity.
  - vm_compute. reflexivity.
Defined.

Lemma compute_current_step_converts_examples (w : World) :
  let stored v := session_state_set "current_step" v w in
  compute_current_step (stored (PyFloat float_2_9)) =
    (Returned 2, stored (PyFloat float_2_9)) /\
  compute_current_step (stored (PyFloat (SFopp float_2_9))) =
    (Returned (-2), stored (PyFloat (SFopp float_2_9))) /\
  compute_current_step (stored (PyBool true)) =
    (Returned 1, stored (PyBool true)) /\
  compute_current_step (stored (PyStr "3")) =
    (Returned 3, stored (PyStr "3")) /\
  compute_current_step (stored (PyStr " -1_0 ")) =
    (Returned (-10), stored (PyStr " -1_0 ")) /\
  py_truediv 29 10 = Returned float_2_9 /\
  spelled "3" = 3 /\ spelled " -1_0 " = -10 /\ spelled "+007" = 7.
Proof.
  intros stored. unfold stored, session_state_set.
  rewrite !compute_current_step_unfold. cbn [session_state].
  rewrite !lookup_insert_eq. by split_and!.
Qed.

(** ** The session state is only read *)

(** C8: [compute_current_step], [render_progress] and a whole pass of
    [main] leave the session state exactly as they found it, whether they
    return or raise: no key is written, changed or removed. *)
Theorem session_state_unchanged (step : Z) (w : World) :
  session_state (snd (compute_current_step w)) = session_state w /\
  session_state (snd (render_progress step w)) = session_state w /\
  session_state (snd (main w)) = session_state w.
Proof.
  assert (forall k, session_state (snd (render_progress k w)) = session_state w)
    as Hrender.
  { intros k. unfold render_progress. rewrite render_progress_with_unfold.
    destruct (py_truediv _ _); [|reflexivity].
    destruct (py_str_int (k + 1)); [|reflexivity].
    destruct (py_str_int (py_len STEPS)); [|reflexivity].
    by destruct (progress_accepts _). }
  split_and!.
  - by rewrite compute_current_step_unfold.
  - apply Hrender.
  - rewrite main_unfold. destruct (py_int _); [apply Hrender | reflexivity].
Qed.

(** ** Decimal text: [str(n)] and [int(s)] agree *)

Section Decimal.
Import IntLiteral.

Lemma classify_pretty_N_char (d : N) :
  (d < 10)%N -> classify (pretty_N_char d) = Digit (Z.of_N d).
Proof.
  intros Hd.
  assert (d = 0 \/ d = 1 \/ d = 2 \/ d = 3 \/ d = 4 \/ d = 5 \/ d = 6 \/
          d = 7 \/ d = 8 \/ d = 9)%N as Hcases by lia.
  repeat destruct Hcases as [-> | Hcases]; try subst d; reflexivity.
Qed.

Lemma pretty_N_go_digits (x : N) :
  forall s : string,
  exists l : Z,
    (x = 0%N -> l = 0) /\
    ((0 < x)%N -> 1 <= l /\ 10 ^ (l - 1) <= Z.of_N x < 10 ^ l) /\
    Z.of_nat (String.length (pretty_N_go x s)) = Z.of_nat (String.length s) + l /\
    (forall acc k : Z,
        scan false acc k (pretty_N_go x s) =
        scan false (acc * 10 ^ l + Z.of_N x) (k + l) s) /\
    ((0 < x)%N -> exists c rest d,
        pretty_N_go x s = String c rest /\ classify c = Digit d).
Proof.
  induction (N.lt_wf_0 x) as [x _ IH]; intros s.
  destruct (N.eq_dec x 0%N) as [-> | Hx].
  - exists 0. rewrite pretty_N_go_0. split_and!; try lia.
    intros acc k. f_equal; lia.
  - assert (0 < x)%N as Hpos by lia.
    rewrite pretty_N_go_step by done.
    pose proof (N.div_lt x 10 Hpos eq_refl) as Hlt.
    assert (x = 10 * (x `div` 10) + x `mod` 10)%N as Hdm by (by apply N.div_mod).
    assert (x `mod` 10 < 10)%N as Hmod by (by apply N.mod_lt).
    remember (x `div` 10)%N as q eqn:Hq. remember (x `mod` 10)%N as r eqn:Hr.
    clear Hq Hr.
    set (c := pretty_N_char r).
    assert (classify c = Digit (Z.of_N r)) as Hc
      by (by apply classify_pretty_N_char).
    destruct (IH q Hlt (String c s)) as (l & Hzero & Hbound & Hlen & Hscan & Hhead).
    assert (0 <= l) as Hl.
    { destruct (N.eq_dec q 0%N) as [H0|H0]; [rewrite Hzero; lia|].
      destruct Hbound; lia. }
    exists (l + 1). split_and!.
    + done.
    + intros _. split; [lia|].
      replace (l + 1 - 1) with l by lia. rewrite Z.pow_add_r, Z.pow_1_r by lia.
      destruct (N.eq_dec q 0%N) as [H0|H0].
      * rewrite (Hzero H0). cbn. lia.
      * destruct Hbound as (Hl1 & Hlo & Hhi); [lia|].
        replace l with (l - 1 + 1) at 1 by lia.
        rewrite Z.pow_add_r, Z.pow_1_r by lia. lia.
    + rewrite Hlen. cbn [String.length]. lia.
    + intros acc k. rewrite Hscan. cbn [scan]. rewrite Hc.
      rewrite Z.pow_add_r, Z.pow_1_r by lia. f_equal; lia.
    + intros _. destruct (N.eq_dec q 0%N) as [H0|H0].
      * rewrite H0, pretty_N_go_0. eauto.
      * apply Hhead. lia.
Qed.

Lemma pretty_positive_digits (p : positive) :
  exists l : Z,
    1 <= l /\ 10 ^ (l - 1) <= Z.pos p < 10 ^ l /\
    Z.of_nat (String.length (pretty (Z.pos p))) = l /\
    scan false 0 0 (pretty (Z.pos p)) = Some (Z.pos p, l, EmptyString) /\
    exists c rest d, pretty (Z.pos p) = String c rest /\ classify c = Digit d.
Proof.
  destruct (pretty_N_go_digits (N.pos p) EmptyString)
    as (l & _ & Hbound & Hlen & Hscan & Hhead).
  destruct Hbound as (Hl & Hlo & Hhi); [lia|].
  assert (pretty (Z.pos p) = pretty_N_go (N.pos p) EmptyString) as ->.
  { unfold pretty, pretty_Z, pretty_positive, pretty, pretty_N.
    by destruct (decide (N.pos p = 0%N)). }
  exists l. split_and!; [done.. | apply Hhead; lia].
Qed.

Lemma digits_within_limit (n l : Z) :
  1 <= l -> 10 ^ (l - 1) <= n < 10 ^ l ->
  (int_max_str_digits <? l) = (10 ^ int_max_str_digits <=? n).
Proof.
  intros Hl [Hlo Hhi].
  destruct (Z.ltb_spec int_max_str_digits l) as [Hlt|Hge];
    destruct (Z.leb_spec (10 ^ int_max_str_digits) n) as [Hle|Hgt]; try done.
  - assert (10 ^ int_max_str_digits <= 10 ^ (l - 1)); [|lia].
    apply Z.pow_le_mono_r; unfold int_max_str_digits in *; lia.
  - assert (10 ^ l <= 10 ^ int_max_str_digits); [|lia].
    apply Z.pow_le_mono_r; unfold int_max_str_digits in *; lia.
Qed.

Lemma py_str_int_limit (n : Z) :
  py_str_int n =
  if 10 ^ int_max_str_digits <=? Z.abs n then Raised ValueError
  else Returned (pretty n).
Proof.
  unfold py_str_int.
  destruct (Z.abs n) as [|p|p] eqn:Habs; [reflexivity| |lia].
  destruct (pretty_positive_digits p) as (l & Hl & Hbound & -> & _).
  by rewrite (digits_within_limit (Z.pos p) l).
Qed.

Lemma parse_digit_head (c : ascii) (rest : string) (d : Z) :
  classify c = Digit d ->
  parse (String c rest) = finish false (scan false 0 0 (String c rest)).
Proof.
  intros Hc. unfold parse, read_sign, starts_with_underscore.
  cbn [skip_spaces]. by rewrite !Hc.
Qed.

Lemma parse_minus_digit_head (c : ascii) (rest : string) (d : Z) :
  classify c = Digit d ->
  parse (String "-" (String c rest)) =
  finish true (scan false 0 0 (String c rest)).
Proof.
  intros Hc. unfold parse, read_sign, starts_with_underscore.
  cbn [skip_spaces].
  change (classify "-") with Minus; cbv iota.
  change (classify "-") with Minus; cbv iota.
  by rewrite !Hc.
Qed.

Lemma parse_pretty (n : Z) :
  Z.abs n < 10 ^ int_max_str_digits -> parse (pretty n) = Returned n.
Proof.
  intros Hn. destruct n as [|p|p]; [reflexivity| |];
    destruct (pretty_positive_digits p)
      as (l & Hl & Hbound & _ & Hscan & c & rest & d & Hhead & Hc).
  - rewrite Hhead, (parse_digit_head c rest d Hc), <- Hhead, Hscan.
    cbn [finish skip_spaces].
    rewrite (digits_within_limit (Z.pos p) l) by done.
    destruct (Z.eqb_spec l 0); [lia|].
    destruct (Z.leb_spec (10 ^ int_max_str_digits) (Z.pos p)); [lia|done].
  - change (pretty (Z.neg p)) with (String "-" (pretty (Z.pos p))).
    rewrite Hhead, (parse_minus_digit_head c rest d Hc), <- Hhead, Hscan.
    cbn [finish skip_spaces].
    rewrite (digits_within_limit (Z.pos p) l) by done.
    destruct (Z.eqb_spec l 0); [lia|].
    destruct (Z.leb_spec (10 ^ int_max_str_digits) (Z.pos p)); [lia|done].
Qed.

End Decimal.

(** ** The division by [len(STEPS)] in binary64 *)

Section Binary64.

Lemma fexp64_eq (e : Z) :
  fexp Float64.prec Float64.emax e = Z.max (e - 53) (-1074).
Proof. reflexivity. Qed.

Lemma digits2_pos_bounds (p : positive) :
  2 ^ (Z.pos (digits2_pos p) - 1) <= Z.pos p < 2 ^ Z.pos (digits2_pos p).
Proof.
  induction p as [p IH|p IH|]; cbn [digits2_pos]; [| |by compute].
  - rewrite Pos2Z.inj_succ, Z.pow_succ_r by lia.
    replace (Z.succ (Z.pos (digits2_pos p)) - 1)
      with (Z.succ (Z.pos (digits2_pos p) - 1)) by lia.
    rewrite Z.pow_succ_r by lia. lia.
  - rewrite Pos2Z.inj_succ, Z.pow_succ_r by lia.
    replace (Z.succ (Z.pos (digits2_pos p)) - 1)
      with (Z.succ (Z.pos (digits2_pos p) - 1)) by lia.
    rewrite Z.pow_succ_r by lia. lia.
Qed.

Lemma digits2_pos_unique (p : positive) (d : Z) :
  2 ^ (d - 1) <= Z.pos p < 2 ^ d -> Z.pos (digits2_pos p) = d.
Proof.
  intros [Hlo Hhi]. pose proof (digits2_pos_bounds p) as [Hlo' Hhi'].
  assert (0 < d) as Hd.
  { destruct (Z.ltb_spec 0 d); [done|].
    destruct (Z.eq_dec d 0) as [->|Hd0]; [change (2 ^ 0) with 1 in Hhi; lia|].
    rewrite Z.pow_neg_r in Hhi by lia. lia. }
  destruct (Z.lt_trichotomy (Z.pos (digits2_pos p)) d) as [Hlt|[Heq|Hgt]];
    [|done|].
  - assert (2 ^ Z.pos (digits2_pos p) <= 2 ^ (d - 1))
      by (apply Z.pow_le_mono_r; lia). lia.
  - assert (2 ^ d <= 2 ^ (Z.pos (digits2_pos p) - 1))
      by (apply Z.pow_le_mono_r; lia). lia.
Qed.

Lemma div_eucl_div_mod (a b : Z) : Z.div_eucl a b = (a / b, a mod b).
Proof. unfold Z.div, Z.modulo. by destruct (Z.div_eucl a b). Qed.

Lemma shr_1_m (r : shr_record) :
  0 <= shr_m r -> shr_m (shr_1 r) = shr_m r / 2.
Proof.
  destruct r as [m r s]. cbn [shr_m]. intros Hm.
  destruct m as [|[p|p|]|p]; cbn [shr_1 shr_m]; [done| | |done|lia].
  - rewrite Pos2Z.inj_xI. apply Z.div_unique with 1; lia.
  - rewrite Pos2Z.inj_xO. apply Z.div_unique with 0; lia.
Qed.

Lemma iter_pos_shr_1_m (n : positive) :
  forall r : shr_record,
    0 <= shr_m r ->
    shr_m (SpecFloat.iter_pos shr_1 n r) = shr_m r / 2 ^ Z.pos n.
Proof.
  assert (forall a, 0 <= a -> 0 <= a / 2) as Hhalf
    by (intros; apply Z.div_pos; lia).
  assert (forall a k, 0 <= a -> 0 <= a / 2 ^ Z.pos k) as Hpow
    by (intros; apply Z.div_pos; lia).
  induction n as [n IH|n IH|]; intros r Hr; cbn [SpecFloat.iter_pos].
  - assert (0 < 2 ^ Z.pos n) as Hp by (apply Z.pow_pos_nonneg; lia).
    rewrite IH; rewrite IH; rewrite ?shr_1_m; auto.
    rewrite !Z.div_div by lia. f_equal.
    replace (Z.pos n~1) with (1 + Z.pos n + Z.pos n) by lia.
    rewrite !Z.pow_add_r by lia. change (2 ^ 1) with 2. ring.
  - assert (0 < 2 ^ Z.pos n) as Hp by (apply Z.pow_pos_nonneg; lia).
    rewrite IH; rewrite IH; auto.
    rewrite !Z.div_div by lia. f_equal.
    replace (Z.pos n~0) with (Z.pos n + Z.pos n) by lia.
    by rewrite !Z.pow_add_r by lia.
  - by rewrite shr_1_m.
Qed.

Lemma shr_fexp_m (m e : Z) (l : location) :
  0 <= m -> 0 <= fexp Float64.prec Float64.emax (Zdigits2 m + e) - e ->
  shr_m (fst (shr_fexp Float64.prec Float64.emax m e l)) =
    m / 2 ^ (fexp Float64.prec Float64.emax (Zdigits2 m + e) - e) /\
  snd (shr_fexp Float64.prec Float64.emax m e l) = fexp Float64.prec Float64.emax (Zdigits2 m + e).
Proof.
  intros Hm Hn. unfold shr_fexp.
  assert (shr_m (shr_record_of_loc m l) = m) as Hrec by (by destruct l as [|[]]).
  destruct (fexp Float64.prec Float64.emax (Zdigits2 m + e) - e) as [|n|n] eqn:Hshift; [| |lia];
    cbn [shr fst snd].
  - rewrite Hrec, Z.div_1_r. split; [done|lia].
  - rewrite iter_pos_shr_1_m by lia. rewrite Hrec. split; [done|lia].
Qed.

Lemma round_nearest_even_bounds (m : Z) (l : location) :
  m <= round_nearest_even m l <= m + 1.
Proof. destruct l as [|[]]; cbn; try destruct (Z.even m); lia. Qed.

(** Rounding a mantissa of at least 53 bits whose result is a normal
    number.  The mantissa is first cut to 53 bits and rounded to nearest
    even; if that carries into a 54th bit the exponent goes up by one. *)
Lemma binary_round_aux_rounded (sx : bool) (mx ex : Z) (lx : location) (D : Z) :
  2 ^ (D - 1) <= mx < 2 ^ D -> 53 <= D -> -1074 <= D + ex - 53 ->
  let mrs := fst (shr (shr_record_of_loc mx lx) ex (D - 53)) in
  let rounded := round_nearest_even (shr_m mrs) (loc_of_shr_record mrs) in
  let E := D + ex - 53 in
  4503599627370496 <= shr_m mrs < 9007199254740992 /\
  binary_round_aux Float64.prec Float64.emax sx mx ex lx =
    if rounded <? 9007199254740992
    then (if E <=? 971 then S754_finite sx (Z.to_pos rounded) E
          else S754_infinity sx)
    else (if E + 1 <=? 971 then S754_finite sx 4503599627370496 (E + 1)
          else S754_infinity sx).
Proof.
  intros [Hlo Hhi] HD He.
  assert (0 < 2 ^ (D - 1)) as Hpos by (apply Z.pow_pos_nonneg; lia).
  assert (0 < 2 ^ (D - 53)) as Hpn by (apply Z.pow_pos_nonneg; lia).
  destruct mx as [|p|p]; [lia| |lia].
  assert (Zdigits2 (Z.pos p) = D) as Hdig by (by apply digits2_pos_unique).
  assert (fexp Float64.prec Float64.emax (Zdigits2 (Z.pos p) + ex) - ex = D - 53) as Hn
    by (rewrite Hdig, fexp64_eq; lia).
  destruct (shr_fexp_m (Z.pos p) ex lx) as [Hm1 He1]; [lia|lia|].
  rewrite Hn in Hm1. rewrite Hdig, fexp64_eq in He1.
  unfold binary_round_aux.
  unfold shr_fexp at 1. unfold shr_fexp in Hm1, He1. rewrite Hn in *.
  destruct (shr (shr_record_of_loc (Z.pos p) lx) ex (D - 53)) as [mrs1 e1].
  cbn [fst snd] in *. cbv zeta.
  assert (4503599627370496 <= shr_m mrs1 < 9007199254740992) as Hm1b.
  { rewrite Hm1. split.
    - apply Z.div_le_lower_bound; [done|].
      change 4503599627370496 with (2 ^ 52). rewrite <- Z.pow_add_r by lia.
      by replace (D - 53 + 52) with (D - 1) by lia.
    - apply Z.div_lt_upper_bound; [done|].
      change 9007199254740992 with (2 ^ 53). rewrite <- Z.pow_add_r by lia.
      by replace (D - 53 + 53) with D by lia. }
  split; [done|].
  pose proof (round_nearest_even_bounds (shr_m mrs1) (loc_of_shr_record mrs1))
    as Hround.
  destruct (round_nearest_even _ _) as [|r|r]; [lia| |lia].
  assert (e1 = D + ex - 53) as -> by lia.
  destruct (Z.ltb_spec (Z.pos r) 9007199254740992) as [Hr|Hr].
  - assert (Zdigits2 (Z.pos r) = 53) as Hdig2.
    { apply digits2_pos_unique. change (2 ^ (53 - 1)) with 4503599627370496.
      change (2 ^ 53) with 9007199254740992. lia. }
    destruct (shr_fexp_m (Z.pos r) (D + ex - 53) loc_Exact) as [Hm2 He2];
      [lia|rewrite Hdig2, fexp64_eq; lia|].
    rewrite Hdig2, fexp64_eq in Hm2, He2.
    replace (Z.max (53 + (D + ex - 53) - 53) (-1074) - (D + ex - 53))
      with 0 in Hm2 by lia.
    destruct (shr_fexp _ _ (Z.pos r) _ loc_Exact) as [mrs2 e2].
    cbn [fst snd] in *. rewrite Hm2. change (2 ^ 0) with 1. rewrite Z.div_1_r.
    replace e2 with (D + ex - 53) by lia. reflexivity.
  - assert (Z.pos r = 9007199254740992) as Hr' by lia.
    assert (Zdigits2 (Z.pos r) = 54) as Hdig2.
    { apply digits2_pos_unique. rewrite Hr'. by compute. }
    destruct (shr_fexp_m (Z.pos r) (D + ex - 53) loc_Exact) as [Hm2 He2];
      [lia|rewrite Hdig2, fexp64_eq; lia|].
    rewrite Hdig2, fexp64_eq in Hm2, He2.
    replace (Z.max (54 + (D + ex - 53) - 53) (-1074) - (D + ex - 53))
      with 1 in Hm2 by lia.
    destruct (shr_fexp _ _ (Z.pos r) _ loc_Exact) as [mrs2 e2].
    cbn [fst snd] in *. rewrite Hm2, Hr'.
    change (_ `div` 2 ^ 1) with 4503599627370496.
    replace e2 with (D + ex - 53 + 1) by lia. reflexivity.
Qed.

Lemma binary_round_aux_normal (sx : bool) (mx ex : Z) (lx : location) (D : Z) :
  2 ^ (D - 1) <= mx < 2 ^ D -> 53 <= D -> -1074 <= D + ex - 53 ->
  exists (m : positive) (e : Z),
    (e = D + ex - 53 \/ e = D + ex - 52) /\
    binary_round_aux Float64.prec Float64.emax sx mx ex lx =
      if e <=? 971 then S754_finite sx m e else S754_infinity sx.
Proof.
  intros Hmx HD He.
  destruct (binary_round_aux_rounded sx mx ex lx D Hmx HD He) as [_ ->].
  destruct (_ <? _); eexists _, _; (split; [|reflexivity]); lia.
Qed.

Lemma SFdiv_core_binary_eq (m1 e1 m2 e2 : Z) :
  let e' := Z.min (fexp Float64.prec Float64.emax (Zdigits2 m1 + e1 - (Zdigits2 m2 + e2))) (e1 - e2) in
  let q := m1 * 2 ^ (e1 - e2 - e') in
  SFdiv_core_binary Float64.prec Float64.emax m1 e1 m2 e2 =
  (q / m2, e', new_location m2 (q mod m2)).
Proof.
  intros e' q. unfold SFdiv_core_binary. fold e'.
  assert (0 <= e1 - e2 - e') as Hs by (unfold e'; lia).
  assert ((match e1 - e2 - e' with
           | Z.pos _ => Z.shiftl m1 (e1 - e2 - e')
           | 0 => m1
           | Z.neg _ => 0
           end) = q) as ->.
  { unfold q. destruct (e1 - e2 - e') as [|k|k] eqn:Hk; [|..|lia].
    - change (2 ^ 0) with 1. lia.
    - by rewrite Z.shiftl_mul_pow2. }
  by rewrite div_eucl_div_mod.
Qed.

(** The shift that the division by 4 applies to a dividend of [d] bits. *)
Lemma SFdiv_core_by_4 (p : positive) :
  let d := Z.pos (digits2_pos p) in
  let s := Z.max 0 (56 - d) in
  SFdiv_core_binary Float64.prec Float64.emax (Z.pos p) 0 4 0 =
  ((Z.pos p * 2 ^ s) / 4, - s, new_location 4 ((Z.pos p * 2 ^ s) mod 4)).
Proof.
  intros d s. rewrite SFdiv_core_binary_eq.
  change (Zdigits2 (Z.pos p)) with d. change (Zdigits2 4) with 3.
  rewrite fexp64_eq.
  assert (0 < d) by (unfold d; lia).
  replace (Z.min (Z.max (d + 0 - (3 + 0) - 53) (-1074)) (0 - 0)) with (- s)
    by (unfold s; lia).
  by replace (0 - 0 - - s) with s by lia.
Qed.

Lemma div_by_4_rounds (sx : bool) (p : positive) :
  let d := Z.pos (digits2_pos p) in
  exists (m : positive) (e : Z),
    (e = d - 55 \/ e = d - 54) /\
    Float64.div (S754_finite sx p 0) (S754_finite false 4 0) =
      if e <=? 971 then S754_finite sx m e else S754_infinity sx.
Proof.
  intros d. unfold Float64.div. cbn [SFdiv].
  rewrite SFdiv_core_by_4. fold d. set (s := Z.max 0 (56 - d)).
  replace (xorb sx false) with sx by (by destruct sx).
  pose proof (digits2_pos_bounds p) as [Hlo Hhi]. fold d in Hlo, Hhi.
  assert (0 < d) as Hd by (unfold d; lia).
  assert (0 <= s) as Hs by (unfold s; lia).
  assert (0 < 2 ^ s) as Hps by (apply Z.pow_pos_nonneg; lia).
  destruct (binary_round_aux_normal sx ((Z.pos p * 2 ^ s) / 4) (- s)
              (new_location 4 ((Z.pos p * 2 ^ s) mod 4)) (d + s - 2))
    as (m & e & He & Hround).
  - split.
    + apply Z.div_le_lower_bound; [lia|].
      change 4 with (2 ^ 2). rewrite <- Z.pow_add_r by (unfold s; lia).
      replace (2 + (d + s - 2 - 1)) with (d - 1 + s) by lia.
      rewrite Z.pow_add_r by lia. nia.
    + apply Z.div_lt_upper_bound; [lia|].
      change 4 with (2 ^ 2). rewrite <- Z.pow_add_r by (unfold s; lia).
      replace (2 + (d + s - 2)) with (d + s) by lia.
      rewrite Z.pow_add_r by lia. nia.
  - unfold s; lia.
  - unfold s; lia.
  - exists m, e. split; [lia|done].
Qed.

Lemma digits_le_of_lt (p : positive) (k : Z) :
  0 <= k -> Z.pos p < 2 ^ k -> Z.pos (digits2_pos p) <= k.
Proof.
  intros Hk Hp. pose proof (digits2_pos_bounds p) as [Hlo _].
  destruct (Z.le_gt_cases (Z.pos (digits2_pos p)) k) as [|Hgt]; [done|].
  assert (2 ^ k <= 2 ^ (Z.pos (digits2_pos p) - 1))
    by (apply Z.pow_le_mono_r; lia). lia.
Qed.

Lemma digits_gt_of_le (p : positive) (k : Z) :
  0 <= k -> 2 ^ k <= Z.pos p -> k < Z.pos (digits2_pos p).
Proof.
  intros Hk Hp. pose proof (digits2_pos_bounds p) as [_ Hhi].
  destruct (Z.lt_ge_cases k (Z.pos (digits2_pos p))) as [|Hle]; [done|].
  assert (2 ^ Z.pos (digits2_pos p) <= 2 ^ k)
    by (apply Z.pow_le_mono_r; lia). lia.
Qed.

Lemma of_Z_finite (a : Z) :
  a <> 0 ->
  Float64.of_Z a = S754_finite (a <? 0) (Z.to_pos (Z.abs a)) 0 /\
  Z.pos (Z.to_pos (Z.abs a)) = Z.abs a.
Proof. by destruct a. Qed.

Lemma binary_round_aux_exact (sx : bool) (x : positive) (ex : Z) :
  4503599627370496 <= Z.pos x < 9007199254740992 ->
  -1074 <= ex + 1 <= 971 ->
  binary_round_aux Float64.prec Float64.emax sx (Z.pos x~0) ex loc_Exact =
  S754_finite sx x (ex + 1).
Proof.
  intros Hx He.
  assert (Zdigits2 (Z.pos x~0) = 54) as Hd1.
  { apply digits2_pos_unique. rewrite Pos2Z.inj_xO.
    change (2 ^ (54 - 1)) with 9007199254740992.
    change (2 ^ 54) with 18014398509481984. lia. }
  assert (Zdigits2 (Z.pos x) = 53) as Hd2.
  { apply digits2_pos_unique. change (2 ^ (53 - 1)) with 4503599627370496.
    change (2 ^ 53) with 9007199254740992. lia. }
  unfold binary_round_aux, shr_fexp.
  replace (fexp Float64.prec Float64.emax (Zdigits2 (Z.pos x~0) + ex) - ex) with 1
    by (rewrite Hd1, fexp64_eq; lia).
  cbn [shr SpecFloat.iter_pos shr_record_of_loc shr_1 loc_of_shr_record shr_m
       round_nearest_even orb].
  replace (fexp Float64.prec Float64.emax (Zdigits2 (Z.pos x) + (ex + 1)) - (ex + 1)) with 0
    by (rewrite Hd2, fexp64_eq; lia).
  cbn [shr shr_record_of_loc shr_m].
  change (Float64.emax - Float64.prec) with 971.
  by destruct (Z.leb_spec (ex + 1) 971); [|lia].
Qed.

(** Below [2^53] the quotient by 4 is exact. *)
Lemma py_truediv_4_exact (a : Z) :
  Z.abs a < 2 ^ 53 ->
  exists f,
    py_truediv a 4 = Returned f /\
    valid_binary Float64.prec Float64.emax f = true /\
    Float64.exactly f (inject_Z a / inject_Z 4).
Proof.
  intros Ha. unfold py_truediv. change (4 =? 0) with false. cbv iota.
  destruct (Z.eq_dec a 0) as [->|Hnz].
  { eexists. split_and!; [reflexivity..|]. by eexists. }
  destruct (of_Z_finite a Hnz) as [-> Habs].
  change (Float64.of_Z 4) with (S754_finite false 4 0).
  set (p := Z.to_pos (Z.abs a)) in *.
  unfold Float64.div. cbn [SFdiv]. rewrite SFdiv_core_by_4.
  replace (xorb (a <? 0) false) with (a <? 0) by (by destruct (a <? 0)).
  pose proof (digits2_pos_bounds p) as [Hlo Hhi].
  assert (Z.pos (digits2_pos p) <= 53) as Hd by (apply digits_le_of_lt; lia).
  set (d := Z.pos (digits2_pos p)) in *.
  assert (0 < d) as Hd0 by (unfold d; lia).
  replace (Z.max 0 (56 - d)) with (53 - d + 1 + 2) by lia.
  assert (0 < 2 ^ (53 - d)) as Hpow by (apply Z.pow_pos_nonneg; lia).
  assert (2 ^ (d - 1) * 2 ^ (53 - d) = 4503599627370496) as Hfull.
  { rewrite <- Z.pow_add_r by lia. by replace (d - 1 + (53 - d)) with 52 by lia. }
  assert (2 ^ d = 2 * 2 ^ (d - 1)) as Hdd.
  { rewrite <- (Z.pow_succ_r 2 (d - 1)) by lia. f_equal. lia. }
  set (x := Z.to_pos (Z.pos p * 2 ^ (53 - d))).
  assert (Z.pos x = Z.pos p * 2 ^ (53 - d)) as Hx by (unfold x; lia).
  assert (Z.pos p * 2 ^ (53 - d + 1 + 2) = Z.pos x~0 * 4) as ->.
  { rewrite !Z.pow_add_r, (Pos2Z.inj_xO x), Hx by lia.
    change (2 ^ 1) with 2. change (2 ^ 2) with 4. ring. }
  rewrite Z.div_mul, Z.mod_mul by done.
  change (new_location 4 0) with loc_Exact.
  assert (4503599627370496 <= Z.pos x < 9007199254740992) as Hxb by nia.
  rewrite binary_round_aux_exact by (done || lia).
  replace (- (53 - d + 1 + 2) + 1) with (d - 55) by lia.
  eexists. split_and!; [reflexivity| |].
  - unfold valid_binary, bounded, canonical_mantissa.
    assert (Z.pos (digits2_pos x) = 53) as ->.
    { apply digits2_pos_unique. change (2 ^ (53 - 1)) with 4503599627370496.
      change (2 ^ 53) with 9007199254740992. lia. }
    rewrite fexp64_eq. apply andb_true_intro. split.
    + apply Z.eqb_eq. lia.
    + apply Z.leb_le. change (Float64.emax - Float64.prec) with 971. lia.
  - unfold Float64.exactly, Float64.to_Q.
    destruct (d - 55) as [|k|k] eqn:Hk; [lia|lia|].
    eexists. split; [reflexivity|].
    unfold Qeq, Qdiv, Qmult, Qinv, inject_Z. cbn [Qnum Qden].
    rewrite Pos2Z.inj_pow.
    assert (2 ^ Z.pos k = 4 * 2 ^ (53 - d)) as ->.
    { replace (Z.pos k) with (2 + (53 - d)) by lia.
      by rewrite Z.pow_add_r by lia. }
    change (Z.pos (1 * 4)) with 4.
    destruct a as [|a|a]; cbn [Z.ltb Z.compare cond_Zopp] in *; lia.
Qed.

Lemma shr_1_represents (mrs : shr_record) (num den : Z) :
  represents mrs num den -> represents (shr_1 mrs) num (den * 2).
Proof.
  intros (Hden & Hnum & Hm & Hrs).
  pose proof (Z.mod_pos_bound num den Hden) as Hrem.
  assert (0 <= num / den) as Hq by (by apply Z.div_pos).
  assert (num / (den * 2) = num / den / 2) as Hdiv
    by (by rewrite Z.div_div by lia).
  assert (num mod (den * 2) = num mod den + den * ((num / den) mod 2)) as Hmod
    by (by rewrite Z.rem_mul_r by lia).
  unfold represents. rewrite Hdiv, Hmod, <- Hm.
  destruct mrs as [m r s]. cbn [shr_m shr_r shr_s] in *.
  split; [lia|]. split; [done|].
  destruct m as [|[p|p|]|p]; cbn [shr_1 shr_m shr_r shr_s]; [| | | |lia].
  - change (0 mod 2) with 0. change (0 `div` 2) with 0.
    split; [done|]. destruct r, s; cbn [orb]; lia.
  - assert (Z.pos p~1 mod 2 = 1 /\ Z.pos p~1 / 2 = Z.pos p) as [-> ->].
    { rewrite Pos2Z.inj_xI. split.
      - symmetry. apply Z.mod_unique with (Z.pos p); lia.
      - symmetry. apply Z.div_unique with 1; lia. }
    split; [done|]. destruct r, s; cbn [orb]; lia.
  - assert (Z.pos p~0 mod 2 = 0 /\ Z.pos p~0 / 2 = Z.pos p) as [-> ->].
    { rewrite Pos2Z.inj_xO. split.
      - symmetry. apply Z.mod_unique with (Z.pos p); lia.
      - symmetry. apply Z.div_unique with 0; lia. }
    split; [done|]. destruct r, s; cbn [orb]; lia.
  - change (1 mod 2) with 1. change (1 `div` 2) with 0.
    split; [done|]. destruct r, s; cbn [orb]; lia.
Qed.

Lemma iter_pos_shr_1_represents (n : positive) :
  forall (mrs : shr_record) (num den : Z),
    represents mrs num den ->
    represents (SpecFloat.iter_pos shr_1 n mrs) num (den * 2 ^ Z.pos n).
Proof.
  induction n as [n IH|n IH|]; intros mrs num den H; cbn [SpecFloat.iter_pos].
  - apply shr_1_represents, IH, IH in H.
    replace (Z.pos n~1) with (1 + Z.pos n + Z.pos n) by lia.
    rewrite !Z.pow_add_r by lia. change (2 ^ 1) with 2.
    by rewrite !Z.mul_assoc.
  - apply IH, IH in H.
    replace (Z.pos n~0) with (Z.pos n + Z.pos n) by lia.
    rewrite !Z.pow_add_r by lia. by rewrite !Z.mul_assoc.
  - by apply shr_1_represents.
Qed.

Lemma shr_represents (mrs : shr_record) (num den e n : Z) :
  0 <= n -> represents mrs num den ->
  represents (fst (shr mrs e n)) num (den * 2 ^ n).
Proof.
  intros Hn H. destruct n as [|n|n]; [..|lia]; cbn [shr fst].
  - change (2 ^ 0) with 1. by rewrite Z.mul_1_r.
  - by apply iter_pos_shr_1_represents.
Qed.

Lemma division_represents (num : Z) :
  0 <= num ->
  represents (shr_record_of_loc (num / 4) (new_location 4 (num mod 4))) num 4.
Proof.
  intros Hnum. pose proof (Z.mod_pos_bound num 4 eq_refl) as Hrem.
  assert (num mod 4 = 0 \/ num mod 4 = 1 \/ num mod 4 = 2 \/ num mod 4 = 3)
    as [H|[H|[H|H]]] by lia;
    unfold represents; rewrite H; vm_compute (new_location 4 _);
    cbn [shr_record_of_loc shr_m shr_r shr_s]; split_and!; lia.
Qed.

(** Rounding to nearest even, read off the fraction the record stands for. *)
Lemma round_nearest_even_represents (mrs : shr_record) (num den : Z) :
  represents mrs num den ->
  round_nearest_even (shr_m mrs) (loc_of_shr_record mrs) =
  if (den <? 2 * (num mod den)) ||
     ((den =? 2 * (num mod den)) && Z.odd (num / den))
  then num / den + 1 else num / den.
Proof.
  intros (Hden & Hnum & Hm & Hrs). rewrite <- Hm.
  destruct mrs as [m r s]. cbn [shr_m shr_r shr_s] in *.
  rewrite <- Z.negb_even.
  destruct r, s; cbn [loc_of_shr_record round_nearest_even].
  - destruct (Z.ltb_spec den (2 * (num mod den))); [done|lia].
  - destruct (Z.ltb_spec den (2 * (num mod den))); [lia|].
    destruct (Z.eqb_spec den (2 * (num mod den))); [|lia].
    by destruct (Z.even m).
  - destruct (Z.ltb_spec den (2 * (num mod den))); [lia|].
    by destruct (Z.eqb_spec den (2 * (num mod den))); [lia|].
  - destruct (Z.ltb_spec den (2 * (num mod den))); [lia|].
    by destruct (Z.eqb_spec den (2 * (num mod den))); [lia|].
Qed.

Lemma pow2_as_multiples :
  2 ^ 1026 = 36028797018963968 * 2 ^ 971 /\
  2 ^ 1025 = 18014398509481984 * 2 ^ 971 /\
  2 ^ 973 = 4 * 2 ^ 971 /\
  2 ^ 972 = 2 * 2 ^ 971 /\ 0 < 2 ^ 971.
Proof.
  split_and!.
  - change 36028797018963968 with (2 ^ 55). by rewrite <- Z.pow_add_r by lia.
  - change 18014398509481984 with (2 ^ 54). by rewrite <- Z.pow_add_r by lia.
  - change 4 with (2 ^ 2). by rewrite <- Z.pow_add_r by lia.
  - change 2 with (2 ^ 1) at 2. by rewrite <- Z.pow_add_r by lia.
  - by apply Z.pow_pos_nonneg.
Qed.

(** A dividend of 1026 bits: the quotient by 4 overflows exactly when it
    rounds up to [2^1024]. *)
Lemma div_by_4_at_the_edge (sx : bool) (p : positive) :
  Z.pos (digits2_pos p) = 1026 ->
  exists m : positive,
    Float64.div (S754_finite sx p 0) (S754_finite false 4 0) =
      if 2 ^ 1026 - 2 ^ 972 <=? Z.pos p then S754_infinity sx
      else S754_finite sx m 971.
Proof.
  intros Hd. pose proof (digits2_pos_bounds p) as [Hlo Hhi].
  rewrite Hd in Hlo, Hhi. change (1026 - 1) with 1025 in Hlo.
  unfold Float64.div. cbn [SFdiv]. rewrite SFdiv_core_by_4, Hd.
  change (Z.max 0 (56 - 1026)) with 0. change (2 ^ 0) with 1.
  rewrite Z.mul_1_r. change (- 0) with 0.
  replace (xorb sx false) with sx by (by destruct sx).
  assert (2 ^ 1025 = 4 * 2 ^ (1024 - 1) /\ 2 ^ 1026 = 4 * 2 ^ 1024) as [H25 H26].
  { change 4 with (2 ^ 2). by rewrite <- !Z.pow_add_r by lia. }
  destruct (binary_round_aux_rounded sx (Z.pos p / 4) 0
              (new_location 4 (Z.pos p mod 4)) 1024) as [Hm ->].
  { split.
    - apply Z.div_le_lower_bound; lia.
    - apply Z.div_lt_upper_bound; lia. }
  { lia. }
  { lia. }
  pose proof (shr_represents _ (Z.pos p) 4 0 (1024 - 53) ltac:(lia)
                (division_represents (Z.pos p) ltac:(lia))) as Hrep.
  rewrite (round_nearest_even_represents _ _ _ Hrep).
  destruct Hrep as (_ & _ & Hm1 & _). rewrite Hm1 in Hm. clear Hm1.
  change (1024 + 0 - 53) with 971. change (971 + 1 <=? 971) with false.
  change (971 <=? 971) with true. cbv iota.
  change (1024 - 53) with 971 in *.
  destruct pow2_as_multiples as (E26 & _ & _ & E72 & HT).
  rewrite E26, E72 in *. clear E26 E72 H25 H26.
  set (T := 2 ^ 971) in *. clearbody T.
  pose proof (Z.div_mod (Z.pos p) (4 * T) ltac:(lia)) as Hdm.
  pose proof (Z.mod_pos_bound (Z.pos p) (4 * T) ltac:(lia)) as Hrem.
  set (m1 := Z.pos p / (4 * T)) in *. set (rem := Z.pos p mod (4 * T)) in *.
  clearbody m1 rem.
  destruct (Z.leb_spec (36028797018963968 * T - 2 * T) (Z.pos p)) as [Hbig|Hsmall].
  - assert (m1 = 9007199254740991) as ->.
    { destruct (Z.eq_dec m1 9007199254740991) as [|Hne]; [done|].
      assert (4 * T * m1 <= 4 * T * 9007199254740990)
        by (apply Z.mul_le_mono_nonneg_l; lia). lia. }
    change (Z.odd 9007199254740991) with true. rewrite andb_true_r.
    assert ((4 * T <? 2 * rem) || (4 * T =? 2 * rem) = true) as ->.
    { apply orb_true_iff. rewrite Z.ltb_lt, Z.eqb_eq. lia. }
    by exists 1%positive.
  - destruct ((4 * T <? 2 * rem) || _) eqn:Hc.
    2: { destruct (Z.ltb_spec m1 9007199254740992); [by eexists|lia]. }
    destruct (Z.ltb_spec (m1 + 1) 9007199254740992) as [|Hge]; [by eexists|].
    exfalso. assert (m1 = 9007199254740991) as -> by lia.
    change (Z.odd 9007199254740991) with true in Hc. rewrite andb_true_r in Hc.
    apply orb_true_iff in Hc. rewrite Z.ltb_lt, Z.eqb_eq in Hc. lia.
Qed.

(** The quotient by 4 overflows exactly from [2^1026 - 2^972] on, the first
    dividend whose quotient rounds up to [2^1024]. *)
Lemma py_truediv_4_threshold (a : Z) :
  (2 ^ 1026 - 2 ^ 972 <= Z.abs a -> py_truediv a 4 = Raised OverflowError) /\
  (Z.abs a < 2 ^ 1026 - 2 ^ 972 ->
   exists f, py_truediv a 4 = Returned f /\ Float64.is_finite f = true).
Proof.
  destruct pow2_as_multiples as (E26 & E25 & _ & E72 & HT).
  unfold py_truediv. change (4 =? 0) with false. cbv iota.
  destruct (Z.eq_dec a 0) as [->|Hnz].
  { split; [cbn [Z.abs]; lia|by eexists]. }
  destruct (of_Z_finite a Hnz) as [-> Habs].
  change (Float64.of_Z 4) with (S754_finite false 4 0).
  set (p := Z.to_pos (Z.abs a)) in *. set (sx := a <? 0). rewrite <- Habs.
  clearbody p sx.
  pose proof (digits2_pos_bounds p) as [Hlo Hhi].
  destruct (Z.lt_trichotomy (Z.pos (digits2_pos p)) 1026) as [Hd|[Hd|Hd]].
  - destruct (div_by_4_rounds sx p) as (m & e & He & ->).
    assert (2 ^ Z.pos (digits2_pos p) <= 2 ^ 1025)
      by (apply Z.pow_le_mono_r; lia).
    destruct (Z.leb_spec e 971); [|lia].
    split; [lia|by eexists].
  - destruct (div_by_4_at_the_edge sx p Hd) as (m & ->).
    destruct (Z.leb_spec (2 ^ 1026 - 2 ^ 972) (Z.pos p)).
    + split; [done|lia].
    + split; [lia|by eexists].
  - destruct (div_by_4_rounds sx p) as (m & e & He & ->).
    assert (2 ^ 1026 <= 2 ^ (Z.pos (digits2_pos p) - 1))
      by (apply Z.pow_le_mono_r; lia).
    destruct (Z.leb_spec e 971); [lia|].
    split; [done|lia].
Qed.

End Binary64.

(** ** [render_progress] at any step *)

Lemma digit_limit_above_float_range : 2 ^ 1026 <= 10 ^ int_max_str_digits.
Proof.
  unfold int_max_str_digits.
  transitivity (10 ^ 1026).
  - apply Z.pow_le_mono_l. lia.
  - apply Z.pow_le_mono_r; lia.
Qed.

Lemma py_str_int_below (n : Z) :
  Z.abs n < 2 ^ 1026 -> py_str_int n = Returned (pretty n).
Proof.
  intros Hn. rewrite py_str_int_limit.
  pose proof digit_limit_above_float_range.
  by destruct (Z.leb_spec (10 ^ int_max_str_digits) (Z.abs n)); [lia|].
Qed.

Lemma render_progress_unfold (step : Z) (w : World) :
  render_progress step w =
  match py_truediv (step + 1) 4 with
  | Raised e => (Raised e, w)
  | Returned progress =>
      match py_str_int (step + 1) with
      | Raised e => (Raised e, w)
      | Returned numerator =>
          if progress_accepts progress
          then (Returned tt,
                after_rendering
                  [UiWrite ("Step " ++ numerator ++ " of 4");
                   UiProgress progress] w)
          else (Raised StreamlitAPIException,
                after_rendering [UiWrite ("Step " ++ numerator ++ " of 4")] w)
      end
  end.
Proof.
  unfold render_progress. rewrite render_progress_with_unfold.
  change (py_len STEPS) with 4.
  destruct (py_truediv _ _); [|reflexivity].
  by destruct (py_str_int (step + 1)).
Qed.

Lemma string_length_app (a b : string) :
  String.length (a +:+ b) = (String.length a + String.length b)%nat.
Proof.
  induction a as [|c a IH]; [done|].
  change (String c a +:+ b) with (String c (a +:+ b)).
  cbn [String.length]. by rewrite IH.
Qed.

Lemma string_app_inv_tail (t : string) :
  forall a b : string, a +:+ t = b +:+ t -> a = b.
Proof.
  induction a as [|c a IH]; intros [|c' b] H.
  - done.
  - apply (f_equal String.length) in H.
    rewrite !string_length_app in H. cbn [String.length] in H. lia.
  - apply (f_equal String.length) in H.
    rewrite !string_length_app in H. cbn [String.length] in H. lia.
  - change (String c (a +:+ t) = String c' (b +:+ t)) in H.
    injection H as -> H. f_equal. by apply IH.
Qed.

(** *** Which quotients [st.progress] accepts *)

Lemma progress_accepts_negative (m : positive) (e : Z) :
  progress_accepts (S754_finite true m e) = false.
Proof. reflexivity. Qed.

Lemma progress_accepts_large (m : positive) (e : Z) :
  -52 < e -> progress_accepts (S754_finite false m e) = false.
Proof.
  intros He. unfold progress_accepts, SFleb, SFcompare.
  by rewrite (proj2 (Z.compare_gt_iff e (-52))) by lia.
Qed.

(** A dividend from 0 to 4 gives a quotient that is exact and accepted. *)
Lemma py_truediv_4_accepted (a : Z) :
  0 <= a <= 4 ->
  exists f,
    py_truediv a 4 = Returned f /\ progress_accepts f = true /\
    valid_binary Float64.prec Float64.emax f = true /\
    Float64.exactly f (inject_Z a / inject_Z 4).
Proof.
  intros Ha.
  assert (a = 0 \/ a = 1 \/ a = 2 \/ a = 3 \/ a = 4) as Hcases by lia.
  destruct Hcases as [-> | [-> | [-> | [-> | ->]]]];
    (eexists; split_and!;
     [ reflexivity | reflexivity | reflexivity
     | eexists; split; [reflexivity | vm_compute; reflexivity] ]).
Qed.

(** Any other dividend below the overflow threshold gives a quotient that
    is rejected. *)
Lemma py_truediv_4_rejected (a : Z) :
  a < 0 \/ 4 < a -> Z.abs a < 2 ^ 1026 - 2 ^ 972 ->
  exists f, py_truediv a 4 = Returned f /\ progress_accepts f = false.
Proof.
  intros Hout Hlt.
  destruct (py_truediv_4_threshold a) as [_ Hret].
  destruct (Hret Hlt) as (f & Hf & _). exists f. split; [done|].
  assert (a = 5 \/ a = 6 \/ a = 7 \/ a < 0 \/ 8 <= a) as Hcases by lia.
  destruct Hcases as [-> | [-> | [-> | Hfar]]];
    [by injection Hf as <-..|].
  revert Hf. unfold py_truediv. change (4 =? 0) with false. cbv iota.
  destruct (of_Z_finite a) as [-> Habs]; [lia|].
  change (Float64.of_Z 4) with (S754_finite false 4 0).
  destruct (div_by_4_rounds (a <? 0) (Z.to_pos (Z.abs a))) as (m & e & He & ->).
  destruct (e <=? 971); [|discriminate]. intros [= <-].
  destruct (Z.ltb_spec a 0) as [Hneg|Hpos].
  - apply progress_accepts_negative.
  - apply progress_accepts_large.
    assert (3 < Z.pos (digits2_pos (Z.to_pos (Z.abs a))))
      by (apply digits_gt_of_le; [lia|change (2 ^ 3) with 8; lia]).
    lia.
Qed.

(** X1: for a step outside -1..3 and below the overflow threshold
    ([|step + 1| < 2^1026 - 2^972]), [render_progress] writes the label
    "Step n of 4", with [n] the decimal text of [step + 1], and then raises
    [StreamlitAPIException]: the quotient it passes to [st.progress] is not
    between 0.0 and 1.0, and no progress value is displayed. *)
Theorem render_progress_rejected_step (step : Z) (w : World) :
  step < -1 \/ py_len STEPS - 1 < step ->
  Z.abs (step + 1) < 2 ^ 1026 - 2 ^ 972 ->
  render_progress step w =
    (Raised StreamlitAPIException,
     after_rendering [UiWrite ("Step " ++ pretty (step + 1) ++ " of 4")] w).
Proof.
  change (py_len STEPS) with 4. intros Hout Hstep.
  rewrite render_progress_unfold.
  destruct (py_truediv_4_rejected (step + 1)) as (f & -> & ->); [lia|done|].
  destruct pow2_as_multiples as (E26 & _ & _ & E72 & HT).
  by rewrite py_str_int_below by lia.
Qed.

Lemma render_progress_rejected_step_witness :
  render_progress (-8) (mkWorld ∅ []) =
    (Raised StreamlitAPIException,
     after_rendering [UiWrite ("Step " ++ pretty (-8 + 1) ++ " of 4")]
       (mkWorld ∅ [])).
Proof.
  apply (render_progress_rejected_step (-8) (mkWorld ∅ [])).
  - vm_compute. left. reflexivity.
  - vm_compute. reflexivity.
Defined.

(** The three ways a call of [render_progress] can go. *)
Lemma render_progress_cases (step : Z) (w : World) :
  (-1 <= step <= 3 /\
   exists progress,
     render_progress step w =
       (Returned tt,
        after_rendering
          [UiWrite ("Step " ++ pretty (step + 1) ++ " of 4");
           UiProgress progress] w) /\
     valid_binary Float64.prec Float64.emax progress = true /\
     Float64.exactly progress (inject_Z (step + 1) / inject_Z 4)) \/
  ((step < -1 \/ 3 < step) /\ Z.abs (step + 1) < 2 ^ 1026 - 2 ^ 972 /\
   render_progress step w =
     (Raised StreamlitAPIException,
      after_rendering [UiWrite ("Step " ++ pretty (step + 1) ++ " of 4")] w)) \/
  (2 ^ 1026 - 2 ^ 972 <= Z.abs (step + 1) /\ (step < -1 \/ 3 < step) /\
   render_progress step w = (Raised OverflowError, w)).
Proof.
  destruct pow2_as_multiples as (E26 & _ & _ & E72 & HT).
  rewrite render_progress_unfold.
  destruct (Z.lt_ge_cases (Z.abs (step + 1)) (2 ^ 1026 - 2 ^ 972)) as [Hlt|Hge].
  - rewrite py_str_int_below by lia.
    destruct (Z.le_gt_cases (-1) step) as [Hlo|Hlo];
      [destruct (Z.le_gt_cases step 3) as [Hhi|Hhi]|].
    + left. split; [lia|].
      destruct (py_truediv_4_accepted (step + 1)) as (f & -> & -> & Hv & Hq);
        [lia|]. by exists f.
    + right; left. split_and!; [lia|done|].
      by destruct (py_truediv_4_rejected (step + 1)) as (f & -> & ->); [lia|done|].
    + right; left. split_and!; [lia|done|].
      by destruct (py_truediv_4_rejected (step + 1)) as (f & -> & ->); [lia|done|].
  - right; right.
    destruct (py_truediv_4_threshold (step + 1)) as [Hraise _].
    rewrite (Hraise Hge). split_and!; [done|lia|done].
Qed.

(** X2: the failures of [render_progress].  It raises exactly when the step
    is outside -1..3: [OverflowError] from the division, with nothing
    rendered, when [|step + 1|] is at least [2^1026 - 2^972];
    [StreamlitAPIException] from [st.progress], after the label has been
    written, for every other such step.  It never raises [ValueError] (the
    digit limit of the f-string) nor [ZeroDivisionError]. *)
Theorem render_progress_raises_iff (step : Z) (w : World) (e : PyExc) :
  (fst (render_progress step w) = Raised e <->
   (e = OverflowError /\ 2 ^ 1026 - 2 ^ 972 <= Z.abs (step + 1)) \/
   (e = StreamlitAPIException /\ Z.abs (step + 1) < 2 ^ 1026 - 2 ^ 972 /\
    (step < -1 \/ py_len STEPS - 1 < step))) /\
  (2 ^ 1026 - 2 ^ 972 <= Z.abs (step + 1) ->
   render_progress step w = (Raised OverflowError, w)) /\
  (Z.abs (step + 1) < 2 ^ 1026 - 2 ^ 972 ->
   step < -1 \/ py_len STEPS - 1 < step ->
   render_progress step w =
     (Raised StreamlitAPIException,
      after_rendering [UiWrite ("Step " ++ pretty (step + 1) ++ " of 4")] w)).
Proof.
  change (py_len STEPS - 1) with 3.
  destruct (render_progress_cases step w)
    as [(Hin & progress & -> & _)|[(Hout & Hlt & ->)|(Hge & Hout & ->)]];
    cbn [fst]; split_and!; try done; try lia.
  - split; [done|]. intros [[_ ?]|(_ & _ & ?)]; lia.
  - split.
    + intros [= <-]. right. done.
    + intros [[_ ?]|(-> & _)]; [lia|done].
  - split.
    + intros [= <-]. left. done.
    + intros [[-> _]|(_ & ? & _)]; [done|lia].
Qed.

(** X3: for every step with [|step + 1| < 2^53] the quotient computed for
    [st.progress] is a valid binary64 number that is exactly the fraction
    [(step + 1) / len(STEPS)]: no rounding happens.  [render_progress] has
    then written "Step n of 4" and either displays that value and returns,
    or, when Streamlit does not accept it, raises with only the label
    written. *)
Theorem render_progress_exact (step : Z) (w : World) :
  Z.abs (step + 1) < 2 ^ 53 ->
  exists progress : spec_float,
    py_truediv (step + 1) (py_len STEPS) = Returned progress /\
    valid_binary Float64.prec Float64.emax progress = true /\
    Float64.exactly progress (inject_Z (step + 1) / inject_Z (py_len STEPS)) /\
    render_progress step w =
      if progress_accepts progress
      then (Returned tt,
            after_rendering
              [UiWrite ("Step " ++ pretty (step + 1) ++ " of 4");
               UiProgress progress] w)
      else (Raised StreamlitAPIException,
            after_rendering
              [UiWrite ("Step " ++ pretty (step + 1) ++ " of 4")] w).
Proof.
  intros Hstep. rewrite render_progress_unfold. change (py_len STEPS) with 4.
  destruct (py_truediv_4_exact (step + 1) Hstep) as (progress & -> & Hvalid & Hq).
  assert (2 ^ 53 <= 2 ^ 1026) by (apply Z.pow_le_mono_r; lia).
  rewrite py_str_int_below by lia. by exists progress.
Qed.

Lemma render_progress_exact_witness :
  exists progress : spec_float,
    py_truediv (41 + 1) (py_len STEPS) = Returned progress /\
    valid_binary Float64.prec Float64.emax progress = true /\
    Float64.exactly progress (inject_Z (41 + 1) / inject_Z (py_len STEPS)) /\
    render_progress 41 (mkWorld ∅ []) =
      if progress_accepts progress
      then (Returned tt,
            after_rendering
              [UiWrite ("Step " ++ pretty (41 + 1) ++ " of 4");
               UiProgress progress] (mkWorld ∅ []))
      else (Raised StreamlitAPIException,
            after_rendering
              [UiWrite ("Step " ++ pretty (41 + 1) ++ " of 4")] (mkWorld ∅ [])).
Proof.
  apply (render_progress_exact 41 (mkWorld ∅ [])).
  vm_compute. reflexivity.
Defined.

(** When [render_progress] returns, the step was between -1 and 3 and the
    value displayed is exactly [(step + 1) / 4]. *)
Lemma render_progress_returned
    (step : Z) (w : World) (label : string) (progress : spec_float) (q : Q) :
  render_progress step w =
    (Returned tt, after_rendering [UiWrite label; UiProgress progress] w) ->
  Float64.to_Q progress = Some q ->
  -1 <= step <= 3 /\ (q == inject_Z (step + 1) / inject_Z 4)%Q.
Proof.
  intros Hrender Hq.
  destruct (render_progress_cases step w)
    as [(Hin & progress' & Hret & _ & Hval)|[(_ & _ & Hr)|(_ & _ & Hr)]];
    [|rewrite Hr in Hrender; discriminate..].
  split; [done|]. rewrite Hret in Hrender. injection Hrender as Hcalls.
  apply app_inv_head in Hcalls. injection Hcalls as _ ->.
  destruct Hval as (q' & Hq' & Heq). rewrite Hq in Hq'. by injection Hq' as <-.
Qed.

(** X4: [render_progress] returns exactly when the step is between -1 and
    [len(STEPS) - 1]; the value it has then displayed lies between 0 and 1
    and is the fraction [(step + 1) / len(STEPS)]. *)
Theorem render_progress_returns_iff (step : Z) (w : World) :
  (fst (render_progress step w) = Returned tt <->
   -1 <= step <= py_len STEPS - 1) /\
  (forall (label : string) (progress : spec_float) (q : Q),
      render_progress step w =
        (Returned tt, after_rendering [UiWrite label; UiProgress progress] w) ->
      Float64.to_Q progress = Some q ->
      (0 <= q /\ q <= 1)%Q /\
      (q == inject_Z (step + 1) / inject_Z (py_len STEPS))%Q).
Proof.
  change (py_len STEPS) with 4. change (4 - 1) with 3. split.
  - destruct (render_progress_cases step w)
      as [(Hin & progress & -> & _)|[(Hout & _ & ->)|(_ & Hout & ->)]];
      cbn [fst]; (split; [intros ?|intros ?]); try done; lia.
  - intros label progress q Hrender Hq.
    destruct (render_progress_returned step w label progress q Hrender Hq)
      as [Hin Heq].
    split; [|done]. rewrite Heq.
    unfold Qle, Qdiv, Qmult, Qinv, inject_Z. cbn [Qnum Qden].
    change (Z.pos (1 * 4)) with 4. lia.
Qed.

(** X5: the progress value follows the step: of two steps at which
    [render_progress] returns, the later one shows the strictly larger
    value, and conversely. *)
Theorem render_progress_monotone
    (step1 step2 : Z) (w1 w2 : World) (label1 label2 : string)
    (p1 p2 : spec_float) (q1 q2 : Q) :
  render_progress step1 w1 =
    (Returned tt, after_rendering [UiWrite label1; UiProgress p1] w1) ->
  render_progress step2 w2 =
    (Returned tt, after_rendering [UiWrite label2; UiProgress p2] w2) ->
  Float64.to_Q p1 = Some q1 -> Float64.to_Q p2 = Some q2 ->
  step1 < step2 <-> (q1 < q2)%Q.
Proof.
  intros Hr1 Hr2 Hq1 Hq2.
  destruct (render_progress_returned step1 w1 label1 p1 q1 Hr1 Hq1) as [_ ->].
  destruct (render_progress_returned step2 w2 label2 p2 q2 Hr2 Hq2) as [_ ->].
  unfold Qlt, Qdiv, Qmult, Qinv, inject_Z. cbn [Qnum Qden].
  change (Z.pos (1 * 4)) with 4. lia.
Qed.

Lemma render_progress_monotone_witness :
  0 < 3 <->
  (4503599627370496 # 18014398509481984 <
   4503599627370496 # 4503599627370496)%Q.
Proof.
  apply (render_progress_monotone 0 3 (mkWorld ∅ []) (mkWorld ∅ [])
           "Step 1 of 4" "Step 4 of 4" float_0_25
           (S754_finite false 4503599627370496 (-52))).
  - vm_compute. reflexivity.
  - vm_compute. reflexivity.
  - vm_compute. reflexivity.
  - vm_compute. reflexivity.
Defined.

(** X6: The label identifies the step: two calls of [render_progress] that
    write the same label were given the same step. *)
Theorem render_progress_label_injective
    (step1 step2 : Z) (w1 w2 : World) (label : string) (p1 p2 : spec_float) :
  render_progress step1 w1 =
    (Returned tt, after_rendering [UiWrite label; UiProgress p1] w1) ->
  render_progress step2 w2 =
    (Returned tt, after_rendering [UiWrite label; UiProgress p2] w2) ->
  step1 = step2.
Proof.
  assert (forall step w p,
             render_progress step w =
               (Returned tt, after_rendering [UiWrite label; UiProgress p] w) ->
             label = "Step " ++ pretty (step + 1) ++ " of 4") as Hlabel.
  { intros step w p. rewrite render_progress_unfold.
    destruct (py_truediv _ _); [|discriminate].
    rewrite py_str_int_limit. destruct (_ <=? _); [discriminate|].
    destruct (progress_accepts _); [|discriminate].
    intros [= H]. apply app_inv_head in H. by injection H as <-. }
  intros H1%Hlabel H2%Hlabel. rewrite H1 in H2.
  apply (inj (String.append "Step ")) in H2.
  apply string_app_inv_tail in H2.
  apply (inj pretty) in H2. lia.
Qed.

Lemma render_progress_label_injective_witness : 2 = 2.
Proof.
  apply (render_progress_label_injective 2 2 (mkWorld ∅ [])
           (mkWorld ∅ [UiWrite "Welcome"]) "Step 3 of 4"
           (S754_finite false 6755399441055744 (-53))
           (S754_finite false 6755399441055744 (-53))).
  - vm_compute. reflexivity.
  - vm_compute. reflexivity.
Defined.

(** ** One pass of [main], in general *)

Lemma after_rendering_nil (w : World) : after_rendering [] w = w.
Proof. destruct w as [ss r]. unfold after_rendering. cbn. by rewrite app_nil_r. Qed.

(** What a pass of [main] returns or raises, and what it adds to the
    rendering surface, are a function of the ["current_step"] entry. *)
Lemma main_by_key (entry : option PyVal) :
  exists (out : outcome unit) (calls : list UiCall),
    forall w : World,
      session_state w !! "current_step" = entry ->
      main w = (out, after_rendering calls w).
Proof.
  destruct (py_int (default (PyInt 0) entry)) as [step|e] eqn:Hint.
  - destruct (py_truediv (step + 1) 4) as [progress|e] eqn:Hdiv.
    + destruct (py_str_int (step + 1)) as [numerator|e] eqn:Hstr.
      * destruct (progress_accepts progress) eqn:Hacc; eexists _, _; intros w Hkey;
          by rewrite main_unfold, Hkey, Hint, render_progress_unfold, Hdiv, Hstr,
            Hacc.
      * exists (Raised e), []. intros w Hkey.
        by rewrite main_unfold, Hkey, Hint, render_progress_unfold, Hdiv, Hstr,
          after_rendering_nil.
    + exists (Raised e), []. intros w Hkey.
      by rewrite main_unfold, Hkey, Hint, render_progress_unfold, Hdiv,
        after_rendering_nil.
  - exists (Raised e), []. intros w Hkey.
    by rewrite main_unfold, Hkey, Hint, after_rendering_nil.
Qed.

(** X7: end to end: when the host has stored an integer [v] between -1 and
    [len(STEPS) - 1] under ["current_step"], one pass of [main] writes
    "Step v+1 of 4" and sets the progress indicator to exactly
    [(v + 1) / len(STEPS)], leaving the session state as the host set it. *)
Theorem main_renders_stored_step (v : Z) (w : World) :
  -1 <= v <= py_len STEPS - 1 ->
  exists progress : spec_float,
    main (session_state_set "current_step" (PyInt v) w) =
      (Returned tt,
       after_rendering
         [UiWrite ("Step " ++ pretty (v + 1) ++ " of 4"); UiProgress progress]
         (session_state_set "current_step" (PyInt v) w)) /\
    Float64.exactly progress (inject_Z (v + 1) / inject_Z (py_len STEPS)).
Proof.
  change (py_len STEPS) with 4. intros Hv. rewrite main_unfold.
  unfold session_state_set at 1; cbn [session_state].
  rewrite lookup_insert_eq. cbn [default from_option id py_int].
  rewrite render_progress_unfold.
  destruct (py_truediv_4_accepted (v + 1)) as (progress & -> & -> & _ & Hq);
    [lia|].
  rewrite py_str_int_below by (change (2 ^ 1026) with (2 ^ 3 * 2 ^ 1023); lia).
  by exists progress.
Qed.

Lemma main_renders_stored_step_witness :
  exists progress : spec_float,
    main (session_state_set "current_step" (PyInt 1) (mkWorld ∅ [])) =
      (Returned tt,
       after_rendering
         [UiWrite ("Step " ++ pretty (1 + 1) ++ " of 4"); UiProgress progress]
         (session_state_set "current_step" (PyInt 1) (mkWorld ∅ []))) /\
    Float64.exactly progress (inject_Z (1 + 1) / inject_Z (py_len STEPS)).
Proof.
  apply (main_renders_stored_step 1 (mkWorld ∅ [])).
  vm_compute. split; discriminate.
Defined.

(** X8: What [main] does depends on the ["current_step"] entry only: in two
    worlds that agree on it, whatever their other keys and whatever has been
    rendered before, [main] has the same outcome and adds the same calls. *)
Theorem main_depends_on_current_step_only (w1 w2 : World) :
  session_state w1 !! "current_step" = session_state w2 !! "current_step" ->
  exists (out : outcome unit) (calls : list UiCall),
    main w1 = (out, after_rendering calls w1) /\
    main w2 = (out, after_rendering calls w2).
Proof.
  intros Hkey.
  destruct (main_by_key (session_state w1 !! "current_step"))
    as (out & calls & Hmain).
  exists out, calls. split; apply Hmain; done.
Qed.

Lemma main_depends_on_current_step_only_witness :
  exists (out : outcome unit) (calls : list UiCall),
    main (mkWorld {[ "current_step" := PyInt 2; "uploaded" := PyStr "gl.csv" ]}
                  []) =
      (out, after_rendering calls
              (mkWorld {[ "current_step" := PyInt 2;
                          "uploaded" := PyStr "gl.csv" ]} [])) /\
    main (mkWorld {[ "current_step" := PyInt 2 ]} [UiWrite "Welcome"]) =
      (out, after_rendering calls
              (mkWorld {[ "current_step" := PyInt 2 ]} [UiWrite "Welcome"])).
Proof.
  apply main_depends_on_current_step_only. vm_compute. reflexivity.
Defined.

(** X9: Running the script again shows the same thing: if a pass of [main]
    returned after adding some calls, the next pass, on the world the first
    one left, returns after adding the same calls once more. *)
Theorem main_rerun (w : World) (calls : list UiCall) :
  main w = (Returned tt, after_rendering calls w) ->
  main (after_rendering calls w) =
    (Returned tt, after_rendering (calls ++ calls) w).
Proof.
  intros Hfirst.
  destruct (main_by_key (session_state w !! "current_step"))
    as (out & calls' & Hmain).
  rewrite (Hmain w eq_refl) in Hfirst. injection Hfirst as -> Hcalls.
  apply app_inv_head in Hcalls as ->.
  rewrite (Hmain (after_rendering calls w) eq_refl).
  unfold after_rendering; cbn [session_state rendered]. by rewrite app_assoc.
Qed.

Lemma main_rerun_witness :
  main (after_rendering [UiWrite "Step 1 of 4"; UiProgress float_0_25]
          (mkWorld ∅ [])) =
    (Returned tt,
     after_rendering ([UiWrite "Step 1 of 4"; UiProgress float_0_25] ++
                      [UiWrite "Step 1 of 4"; UiProgress float_0_25])
       (mkWorld ∅ [])).
Proof.
  apply (main_rerun (mkWorld ∅ [])). vm_compute. reflexivity.
Defined.

(** X10: the failures of [main].  It raises [e] exactly when
    [compute_current_step] raises [e] (the stored value cannot be
    converted), or the step read is outside -1..3: then [e] is
    [OverflowError] when the division overflows and
    [StreamlitAPIException] otherwise.  Nothing has been rendered in the
    first two cases; in the last one the label has been written and the
    progress value has not been displayed. *)
Theorem main_raises_iff (w : World) (e : PyExc) :
  (fst (main w) = Raised e <->
   fst (compute_current_step w) = Raised e \/
   exists step : Z,
     fst (compute_current_step w) = Returned step /\
     ((e = OverflowError /\ 2 ^ 1026 - 2 ^ 972 <= Z.abs (step + 1)) \/
      (e = StreamlitAPIException /\ Z.abs (step + 1) < 2 ^ 1026 - 2 ^ 972 /\
       (step < -1 \/ py_len STEPS - 1 < step)))) /\
  (fst (main w) = Raised e -> e <> StreamlitAPIException ->
   main w = (Raised e, w)) /\
  (fst (main w) = Raised StreamlitAPIException ->
   exists step : Z,
     compute_current_step w = (Returned step, w) /\
     main w =
       (Raised StreamlitAPIException,
        after_rendering
          [UiWrite ("Step " ++ pretty (step + 1) ++ " of 4")] w)).
Proof.
  change (py_len STEPS - 1) with 3.
  rewrite main_unfold, compute_current_step_unfold. cbn [fst].
  destruct (py_int _) as [step|e0] eqn:Hint.
  - destruct (render_progress_cases step w)
      as [(Hin & progress & -> & _)|[(Hout & Hlt & ->)|(Hge & Hout & ->)]];
      cbn [fst]; split_and!; try done.
    + split; [done|].
      intros [?|(step' & [= <-] & [[_ ?]|(_ & _ & ?)])]; [done|lia..].
    + split.
      * intros [= <-]. right. exists step. split; [done|]. by right.
      * intros [?|(step' & [= <-] & [[_ ?]|(-> & _)])]; [done|lia|done].
    + intros [= <-]. done.
    + intros _. by exists step.
    + split.
      * intros [= <-]. right. exists step. split; [done|]. by left.
      * intros [?|(step' & [= <-] & [[-> _]|(_ & ? & _)])]; [done|done|lia].
    + by intros [= <-].
  - cbn [fst]. split_and!.
    + split; [intros [= <-]; by left|].
      intros [[= <-]|(step' & ? & _)]; done.
    + by intros [= <-].
    + intros [= ->]. apply py_int_raises in Hint. discriminate.
Qed.

(** ** Steps stored as text *)

(** X11: A step stored as the decimal text of an integer, as Python prints
    it (at most [int_max_str_digits] digits), is read back as that integer. *)
Theorem compute_current_step_reads_decimal_text (n : Z) (w : World) :
  Z.abs n < 10 ^ int_max_str_digits ->
  compute_current_step (session_state_set "current_step" (PyStr (pretty n)) w) =
  (Returned n, session_state_set "current_step" (PyStr (pretty n)) w).
Proof.
  intros Hn. rewrite compute_current_step_unfold.
  unfold session_state_set at 1; cbn [session_state].
  rewrite lookup_insert_eq. cbn [default from_option id py_int].
  by rewrite parse_pretty.
Qed.

Lemma compute_current_step_reads_decimal_text_witness :
  compute_current_step
    (session_state_set "current_step" (PyStr (pretty (-12))) (mkWorld ∅ [])) =
  (Returned (-12),
   session_state_set "current_step" (PyStr (pretty (-12))) (mkWorld ∅ [])).
Proof.
  apply (compute_current_step_reads_decimal_text (-12) (mkWorld ∅ [])).
  vm_compute. reflexivity.
Defined.
